(** * zotero-bib-to-gh: change detection, paginated fetch and marker cache

    A shallow embedding of [zotero-bib-to-gh.py].  The script is a sequence
    of network calls, log lines and file operations; it is modelled in a
    state-and-exception monad over an explicit world (the remote server, the
    times of the requests, the environment variables, the paths that cannot
    be opened for writing and the interpreter's recursion limit).  Every
    effect is appended to a chronological trace, so that statements about
    ordering and about what a run did not do can be read off the trace.

    The persisted files are keyed by the text of their path: the model is
    that of a directory in which different path texts name different files,
    which holds of the output names [zotero.bib] and [<integer>.bib] and not
    of names with path syntax in them.  A file that has been opened is
    written and closed without failure; what fails is the opening. *)

From Stdlib Require Import ZArith String Ascii List Lia.
From Stdlib Require Import Decimal DecimalString DecimalZ.
From stdpp Require Import base option list gmap strings.

Local Open Scope Z_scope.
Local Open Scope string_scope.

(** ** The Python built-ins the script relies on

    Text is a [string] of 8-bit characters read as code points below 256.
    [int] follows CPython's [int(str)] in base 10: surrounding whitespace is
    dropped, one sign is allowed, and the digits may be grouped by single
    underscores.  The whitespace that [int] drops is the tab, the line feed,
    the vertical tab, the form feed, the carriage return and the space, and,
    beyond ASCII, the next-line and no-break-space characters; the
    separators 28 to 31, which [str.strip] would drop, are not among them.
    [None] stands for [ValueError].  CPython's configurable cap on the number
    of digits of a conversion is not part of the model. *)

Module Py.

Definition is_space (c : ascii) : bool :=
  let n := nat_of_ascii c in
  (((9 <=? n) && (n <=? 13)) || (n =? 32) || (n =? 133) || (n =? 160))%nat.

Definition digit_of (c : ascii) : option Z :=
  let n := nat_of_ascii c in
  if ((48 <=? n) && (n <=? 57))%nat then Some (Z.of_nat n - 48) else None.

Fixpoint lstrip (s : string) : string :=
  match s with
  | EmptyString => EmptyString
  | String c s' => if is_space c then lstrip s' else s
  end.

Fixpoint rstrip (s : string) : string :=
  match s with
  | EmptyString => EmptyString
  | String c s' =>
      match rstrip s' with
      | EmptyString => if is_space c then EmptyString else String c EmptyString
      | r => String c r
      end
  end.

Definition strip (s : string) : string := rstrip (lstrip s).

(** [digits acc s]: the text after a digit; an underscore must be followed
    by a digit. *)
Fixpoint digits (acc : Z) (s : string) : option Z :=
  match s with
  | EmptyString => Some acc
  | String c s' =>
      if Ascii.eqb c "_" then
        match s' with
        | EmptyString => None
        | String d s'' =>
            match digit_of d with
            | Some v => digits (10 * acc + v) s''
            | None => None
            end
        end
      else
        match digit_of c with
        | Some v => digits (10 * acc + v) s'
        | None => None
        end
  end.

Definition unsigned (s : string) : option Z :=
  match s with
  | EmptyString => None
  | String c s' =>
      match digit_of c with
      | Some v => digits v s'
      | None => None
      end
  end.

Definition int (s : string) : option Z :=
  match strip s with
  | EmptyString => None
  | String c r =>
      if Ascii.eqb c "+" then unsigned r
      else if Ascii.eqb c "-" then Z.opp <$> unsigned r
      else unsigned (String c r)
  end.

(** [str(n)] for an integer: the decimal numeral, with a minus sign for a
    negative number. *)
Definition str (n : Z) : string := NilZero.string_of_int (Z.to_int n).

Definition LF : ascii := ascii_of_nat 10.
Definition CR : ascii := ascii_of_nat 13.

(** [file.readline()] on a file opened in text mode: the text up to the
    first line end, which universal-newline translation hands back as a
    line feed; the whole text when there is no line end. *)
Fixpoint readline (s : string) : string :=
  match s with
  | EmptyString => EmptyString
  | String c s' =>
      if Ascii.eqb c LF || Ascii.eqb c CR then String LF EmptyString
      else String c (readline s')
  end.

(** The positional value of a numeral read after the accumulator [acc]. *)
Fixpoint uint_val (acc : Z) (d : uint) : Z :=
  match d with
  | Nil => acc
  | D0 d' => uint_val (10 * acc + 0) d'
  | D1 d' => uint_val (10 * acc + 1) d'
  | D2 d' => uint_val (10 * acc + 2) d'
  | D3 d' => uint_val (10 * acc + 3) d'
  | D4 d' => uint_val (10 * acc + 4) d'
  | D5 d' => uint_val (10 * acc + 5) d'
  | D6 d' => uint_val (10 * acc + 6) d'
  | D7 d' => uint_val (10 * acc + 7) d'
  | D8 d' => uint_val (10 * acc + 8) d'
  | D9 d' => uint_val (10 * acc + 9) d'
  end.

Fixpoint all_chars (p : ascii -> bool) (s : string) : bool :=
  match s with
  | EmptyString => true
  | String c s' => p c && all_chars p s'
  end.

Definition is_digit (c : ascii) : bool := bool_decide (is_Some (digit_of c)).

End Py.

(** ** Data model *)

(** Exceptions.  [httpx.HTTPError] is the base class of the status error
    raised by [raise_for_status] and of the transport errors; the retry
    decorator of [fetch_url] is keyed on it. *)
Inductive exn : Type :=
| HTTPStatusError (status : Z)
| TransportError
| TypeError
| ValueError
| KeyError
| FileNotFoundError
| PermissionError
| RecursionError
| JSONDecodeError
| OtherError (name : string).

Definition is_HTTPError (e : exn) : bool :=
  match e with
  | HTTPStatusError _ | TransportError => true
  | _ => false
  end.

Inductive result (A : Type) : Type :=
| Ok (a : A)
| Raise (e : exn).
Arguments Ok {A} a.
Arguments Raise {A} e.

(** The values found under a group's ["id"] key. *)
Inductive jvalue : Type :=
| JNull
| JInt (n : Z)
| JStr (s : string).

(** A PageResponse: status code, header mapping (keys in lower case, for
    httpx looks headers up without regard to case), the parsed link
    relations, the body text, and what [.json()] decodes the body to
    ([None] when decoding raises). *)
Record response : Type := {
  status_code : Z;
  headers : gmap string string;
  links : gmap string (gmap string string);
  text : string;
  json : option (list (gmap string jvalue))
}.

Inductive level : Type := INFO | ERROR.

(** The log lines of the script, by their format string. *)
Inductive message : Type :=
| MsgReturned (url : string) (status : Z)
| MsgAccessDenied
| MsgCachedVersion (cached : Z)
| MsgNotDifferent (latest cached : Z)
| MsgDifferent (latest cached : Z)
| MsgFileUpdated (file_name : string)
| MsgMarkerUpdated (latest : Z)
| MsgUserIdUnset
| MsgTokenUnset
| MsgDownloadingGroups
| MsgDone.

Inductive mode : Type := R | W.

Inductive event : Type :=
| EvGet (url : string) (hdrs : gmap string string)
| EvLog (lvl : level) (msg : message)
| EvOpen (path : string) (m : mode)
| EvWrite (path : string) (data : string)
| EvClose (path : string).

(** The persisted files, the number of GET requests issued so far, and the
    effects performed so far, oldest first. *)
Record state : Type := {
  fs : gmap string string;
  clock : nat;
  trace : list event
}.

(** What the script cannot control: the environment variables; the answer
    of the remote to the n-th GET request of the run (a response, or an
    exception raised by the client); the wall-clock times, in milliseconds,
    at which the n-th GET request is sent and at which its outcome is known;
    the paths that cannot be opened for writing (a missing directory,
    missing rights) and the exception that opening them raises; and how many
    nested calls of [follow_and_extract] the interpreter allows before
    [RecursionError]. *)
Record world : Type := {
  env : gmap string string;
  server : nat -> string -> gmap string string -> result response;
  started_at : nat -> Z;
  finished_at : nat -> Z;
  wr_denied : string -> bool;
  wr_error : string -> exn;
  recursion_limit : nat
}.

(** ** The effect monad *)

Definition M (A : Type) : Type := state -> state * result A.

Definition ret {A} (a : A) : M A := fun s => (s, Ok a).

Definition raise {A} (e : exn) : M A := fun s => (s, Raise e).

Definition bind {A B} (m : M A) (k : A -> M B) : M B :=
  fun s =>
    match m s with
    | (s', Ok a) => k a s'
    | (s', Raise e) => (s', Raise e)
    end.

Declare Scope prog_scope.
Delimit Scope prog_scope with prog.
Notation "x <- m ;; k" := (bind m (fun x => k))
  (at level 100, m at next level, right associativity) : prog_scope.
Notation "m ;;; k" := (bind m (fun _ => k))
  (at level 100, right associativity) : prog_scope.
Local Open Scope prog_scope.

(** [try: body except e: handler e]; a handler re-raises what its
    [except] clause does not name. *)
Definition try_except {A} (body : M A) (handler : exn -> M A) : M A :=
  fun s =>
    match body s with
    | (s', Ok a) => (s', Ok a)
    | (s', Raise e) => handler e s'
    end.

Definition emit (ev : event) : M unit :=
  fun s => ({| fs := fs s; clock := clock s; trace := trace s ++ [ev] |}, Ok tt).

Definition log (lvl : level) (msg : message) : M unit := emit (EvLog lvl msg).

Definition of_option {A} (e : exn) (o : option A) : M A :=
  match o with
  | Some a => ret a
  | None => raise e
  end.

(** [int(x)] where [x] may be [None]. *)
Definition py_int (x : option string) : M Z :=
  match x with
  | None => raise TypeError
  | Some s => of_option ValueError (Py.int s)
  end.

Fixpoint for_each {A} (l : list A) (body : A -> M unit) : M unit :=
  match l with
  | [] => ret tt
  | a :: l' => body a ;;; for_each l' body
  end.

(** ** The script *)

Definition is_success (r : response) : bool :=
  ((200 <=? status_code r) && (status_code r <=? 299))%Z.

(** [response.raise_for_status()]: httpx raises [HTTPStatusError] for every
    status outside 200-299. *)
Definition raise_for_status (r : response) : M unit :=
  if is_success r then ret tt else raise (HTTPStatusError (status_code r)).

(** The retry loop of [stamina.retry]: the call is made again while it
    raises an exception of the given kind, attempts remain and the time
    limit has not passed; otherwise the exception is re-raised.  [more] is
    the number of attempts left after the coming one, and [again n] tells
    whether the time limit allows another attempt once [n] GET requests of
    the run are over. *)
Fixpoint retry_loop {A} (on : exn -> bool) (again : nat -> bool) (more : nat)
    (call : M A) : M A :=
  fun s =>
    match call s with
    | (s', Ok a) => (s', Ok a)
    | (s', Raise e) =>
        match more with
        | S k =>
            if on e && again (clock s') then retry_loop on again k call s'
            else (s', Raise e)
        | O => (s', Raise e)
        end
    end.

(** The value of [timeout] that [stamina.retry] takes when the decorator
    gives none, as on line 10: 45 seconds, here in milliseconds. *)
Definition stamina_timeout : Z := 45000.

(** Whether, a call having started with the GET request numbered [first],
    less than [timeout] has gone by when the last of [n] requests is over.
    The waits between the attempts are part of the times of the world. *)
Definition in_time (w : world) (timeout : Z) (first n : nat) : bool :=
  (finished_at w (n - 1) - started_at w first <? timeout)%Z.

(** [@stamina.retry(on=..., attempts=n)], with the time limit it implies. *)
Definition stamina_retry {A} (w : world) (on : exn -> bool) (attempts : nat)
    (timeout : Z) (call : M A) : M A :=
  fun s => retry_loop on (in_time w timeout (clock s)) (attempts - 1) call s.

Definition content_path (file_name : string) : string :=
  "bibliography/" +:+ file_name.

Definition marker_path (file_name : string) : string :=
  "bibliography/" +:+ file_name +:+ "-last-modified-version".

Definition truthy (v : jvalue) : bool :=
  match v with
  | JNull => false
  | JInt n => negb (n =? 0)%Z
  | JStr s => negb (String.eqb s "")
  end.

(** How an f-string renders the value. *)
Definition format (v : jvalue) : string :=
  match v with
  | JNull => "None"
  | JInt n => Py.str n
  | JStr s => s
  end.

Section Script.

Context (w : world).

(** [client.get(url=url, headers=headers)]; a URL that is [None] is turned
    down by the client before anything is sent. *)
Definition client_get (url : option string) (hdrs : gmap string string) : M response :=
  match url with
  | None => raise TypeError
  | Some u =>
      fun s =>
        ({| fs := fs s; clock := S (clock s); trace := trace s ++ [EvGet u hdrs] |},
         server w (clock s) u hdrs)
  end.

(** The body of [fetch_url], one attempt. *)
Definition fetch_url_body (url : option string) (hdrs : gmap string string) : M response :=
  response <- client_get url hdrs ;;
  raise_for_status response ;;;
  log INFO (MsgReturned (default "None" url) (status_code response)) ;;;
  ret response.

Definition fetch_url (url : option string) (hdrs : gmap string string) : M response :=
  stamina_retry w is_HTTPError 3 stamina_timeout (fetch_url_body url hdrs).

(** [follow_and_extract].  [depth] is the number of nested calls still
    allowed; the top call gets [recursion_limit w].  The call that exceeds
    the number raises [RecursionError]; where inside the deepest call the
    interpreter raises it is not modelled. *)
Fixpoint follow_and_extract (depth : nat) (url : option string)
    (hdrs : gmap string string) : M string :=
  match depth with
  | O => raise RecursionError
  | S d =>
      request <- fetch_url url hdrs ;;
      try_except
        (link <- of_option KeyError (links request !! "next") ;;
         let next_url := link !! "url" in
         rest <- follow_and_extract d next_url hdrs ;;
         ret (text request +:+ rest))
        (fun e =>
           match e with
           | KeyError => ret (text request)
           | _ => raise e
           end)
  end.

(** [aiofiles.open(path, "r")] followed by [readline()].  A missing file
    raises [FileNotFoundError]; the closing of a file that was only read is
    not recorded. *)
Definition open_readline (path : string) : M string :=
  emit (EvOpen path R) ;;;
  content <- (fun s => of_option FileNotFoundError (fs s !! path) s) ;;
  ret (Py.readline content).

(** [aiofiles.open(path, "w")]: the file is created or truncated, unless
    the opening fails, with the exception the world gives for the path. *)
Definition open_w (path : string) : M unit :=
  emit (EvOpen path W) ;;;
  if wr_denied w path then raise (wr_error w path)
  else fun s =>
    ({| fs := <[path := ""]> (fs s); clock := clock s; trace := trace s |}, Ok tt).

Definition file_write (path data : string) : M unit :=
  fun s =>
    ({| fs := <[path := default "" (fs s !! path) +:+ data]> (fs s);
        clock := clock s;
        trace := trace s ++ [EvWrite path data] |}, Ok tt).

(** [async with aiofiles.open(path, "w") as file: body]; the file is closed
    however the body ends. *)
Definition with_open_w {A} (path : string) (body : M A) : M A :=
  open_w path ;;;
  fun s =>
    match body s with
    | (s', r) =>
        ({| fs := fs s'; clock := clock s'; trace := trace s' ++ [EvClose path] |}, r)
    end.

(** Lines 36-43: the Version Cache read. *)
Definition read_cached_version (file_name : string) : M Z :=
  try_except
    (line <- open_readline (marker_path file_name) ;;
     cached_version <- py_int (Some line) ;;
     log INFO (MsgCachedVersion cached_version) ;;;
     ret cached_version)
    (fun e =>
       match e with
       | FileNotFoundError | ValueError => ret 0
       | _ => raise e
       end).

(** Lines 61-63: PersistContent. *)
Definition write_content (file_name content : string) : M unit :=
  with_open_w (content_path file_name)
    (file_write (content_path file_name) content ;;;
     log INFO (MsgFileUpdated file_name)).

(** Lines 65-69: PersistMarker. *)
Definition write_marker (file_name : string) (latest_version : Z) : M unit :=
  with_open_w (marker_path file_name)
    (file_write (marker_path file_name) (Py.str latest_version) ;;;
     log INFO (MsgMarkerUpdated latest_version)).

Definition download_and_write_bib (zotero_headers : gmap string string)
    (zotero_url file_name : string) : M unit :=
  zotero_connection <- fetch_url (Some zotero_url) zotero_headers ;;
  if (status_code zotero_connection =? 403)%Z then
    log ERROR MsgAccessDenied
  else
    cached_version <- read_cached_version file_name ;;
    latest_version <- py_int (headers zotero_connection !! "last-modified-version") ;;
    if (cached_version =? latest_version)%Z then
      log INFO (MsgNotDifferent latest_version cached_version)
    else
      log INFO (MsgDifferent latest_version cached_version) ;;;
      biblatex_file_content <-
        follow_and_extract (recursion_limit w) (Some zotero_url) zotero_headers ;;
      write_content file_name biblatex_file_content ;;;
      write_marker file_name latest_version.

Definition user_items_url (user_id : string) : string :=
  "https://api.zotero.org/users/" +:+ user_id +:+ "/items?v=3&format=biblatex".

Definition user_groups_url (user_id : string) : string :=
  "https://api.zotero.org/users/" +:+ user_id +:+ "/groups/".

Definition group_items_url (group_id : string) : string :=
  "https://api.zotero.org/groups/" +:+ group_id +:+ "/items?v=3&format=biblatex".

Definition main : M unit :=
  match env w !! "ZOTERO_USER_ID" with
  | None => log ERROR MsgUserIdUnset
  | Some zotero_user_id =>
      match env w !! "ZOTERO_BEARER_TOKEN" with
      | None => log ERROR MsgTokenUnset
      | Some zotero_bearer_token =>
          let zotero_headers : gmap string string :=
            {[ "Authorization" := "Bearer " +:+ zotero_bearer_token ]} in
          download_and_write_bib zotero_headers
            (user_items_url zotero_user_id) "zotero.bib" ;;;
          log INFO MsgDownloadingGroups ;;;
          groups_response <-
            fetch_url (Some (user_groups_url zotero_user_id)) zotero_headers ;;
          groups <- of_option JSONDecodeError (json groups_response) ;;
          for_each groups
            (fun group =>
               let group_id := default JNull (group !! "id") in
               if truthy group_id then
                 download_and_write_bib zotero_headers
                   (group_items_url (format group_id))
                   (format group_id +:+ ".bib")
               else ret tt) ;;;
          log INFO MsgDone
      end
  end.

End Script.

(** ** Vocabulary of the statements *)

(** The outcome of one attempt of [fetch_url] when it is the n-th GET
    request of the run. *)
Definition attempt_outcome (w : world) (n : nat) (url : string)
    (hdrs : gmap string string) : result response :=
  match server w n url hdrs with
  | Ok r => if is_success r then Ok r else Raise (HTTPStatusError (status_code r))
  | Raise e => Raise e
  end.

Definition fails_with_HTTPError (o : result response) : Prop :=
  exists e, o = Raise e /\ is_HTTPError e = true.

Definition is_get (ev : event) : bool :=
  match ev with
  | EvGet _ _ => true
  | _ => false
  end.

(** The URLs requested in a trace, in order. *)
Definition get_urls (t : list event) : list string :=
  omap (fun ev => match ev with EvGet url _ => Some url | _ => None end) t.

(** Events that touch no file: requests and log lines. *)
Definition is_net (ev : event) : bool :=
  match ev with
  | EvGet _ _ | EvLog _ _ => true
  | _ => false
  end.

(** What a run of the retry loop around [fetch_url_body] amounts to: [n]
    attempts, of which all but the last failed with an [HTTPError] while the
    time limit allowed another one, the last one deciding the result. *)
Definition fetched (w : world) (again : nat -> bool) (url : string)
    (hdrs : gmap string string) (budget : nat)
    (s s' : state) (r : result response) (n : nat) (t : list event) : Prop :=
  (1 <= n <= budget)%nat /\
  clock s' = (clock s + n)%nat /\
  fs s' = fs s /\
  trace s' = (trace s ++ t)%list /\
  Forall (fun ev => is_net ev = true) t /\
  length (filter (fun ev => is_get ev = true) t) = n /\
  (forall i, (i < n - 1)%nat ->
     fails_with_HTTPError (attempt_outcome w (clock s + i) url hdrs)) /\
  r = attempt_outcome w (clock s + (n - 1)) url hdrs /\
  (forall e, r = Raise e -> is_HTTPError e = true ->
     n = budget \/ again (clock s + n)%nat = false) /\
  (forall i, (i < n - 1)%nat -> again (clock s + S i)%nat = true).

(** The cached version that lines 36-43 compute from the persisted files. *)
Definition cached_version_of (files : gmap string string) (file_name : string) : Z :=
  match files !! marker_path file_name with
  | None => 0
  | Some content => default 0 (Py.int (Py.readline content))
  end.

(** [after s t]: the state [s] once the events [t], which touch neither the
    files nor the request counter, have been added to the trace. *)
Definition after (s : state) (t : list event) : state :=
  {| fs := fs s; clock := clock s; trace := trace s ++ t |}.

(** The events of a completed write of [data] to [path], with its log line. *)
Definition write_events (path data : string) (msg : message) : list event :=
  [EvOpen path W; EvWrite path data; EvLog INFO msg; EvClose path].

(** Whether an event changes the file at [path]. *)
Definition touches (path : string) (ev : event) : bool :=
  match ev with
  | EvOpen p W | EvWrite p _ => String.eqb p path
  | _ => false
  end.

(** Events that change no file. *)
Definition no_write (ev : event) : bool :=
  match ev with
  | EvOpen _ W | EvWrite _ _ => false
  | _ => true
  end.

(** [quiet s s']: between [s] and [s'] no file was changed, and the events
    added to the trace change none. *)
Definition quiet (s s' : state) : Prop :=
  fs s' = fs s /\
  exists t, trace s' = (trace s ++ t)%list /\ Forall (fun ev => no_write ev = true) t.

(** The states in which a sync that started in [s] can end, for the output
    name [file_name]: [sq] is where its last event before any write left it.
    Either nothing was written; or the content file could not be opened; or
    the content was written and the marker file could not be opened; or both
    were written, the marker with the text of [latest]. *)
Definition sync_end (w : world) (file_name : string) (sq s' : state)
    (r : result unit) : Prop :=
  let c := content_path file_name in
  let m := marker_path file_name in
  s' = sq \/
  (wr_denied w c = true /\ r = Raise (wr_error w c) /\
   s' = after sq [EvOpen c W]) \/
  (exists body,
     wr_denied w c = false /\ wr_denied w m = true /\ r = Raise (wr_error w m) /\
     s' = {| fs := <[c := body]> (fs sq); clock := clock sq;
             trace := trace sq
                        ++ write_events c body (MsgFileUpdated file_name)
                        ++ [EvOpen m W] |}) \/
  (exists body latest,
     wr_denied w c = false /\ wr_denied w m = false /\ r = Ok tt /\
     s' = {| fs := <[m := Py.str latest]> (<[c := body]> (fs sq)); clock := clock sq;
             trace := trace sq
                        ++ write_events c body (MsgFileUpdated file_name)
                        ++ write_events m (Py.str latest) (MsgMarkerUpdated latest) |}).

(** Lines 57-69: FullFetch, PersistContent and PersistMarker. *)
Definition full_sync (w : world) (zotero_headers : gmap string string)
    (zotero_url file_name : string) (latest_version : Z) : M unit :=
  biblatex_file_content <-
    follow_and_extract w (recursion_limit w) (Some zotero_url) zotero_headers ;;
  write_content w file_name biblatex_file_content ;;;
  write_marker w file_name latest_version.

(** The log line of the Version Cache read, if it logs one. *)
Definition cache_log (files : gmap string string) (file_name : string) : list event :=
  match files !! marker_path file_name with
  | None => []
  | Some content =>
      match Py.int (Py.readline content) with
      | Some v => [EvLog INFO (MsgCachedVersion v)]
      | None => []
      end
  end.

(** The effect of one event on the persisted files, and of a sequence of
    events: what is on disk when the process stops after them. *)
Definition apply_event (w : world) (files : gmap string string) (ev : event)
    : gmap string string :=
  match ev with
  | EvOpen path W => if wr_denied w path then files else <[path := ""]> files
  | EvWrite path data => <[path := default "" (files !! path) +:+ data]> files
  | _ => files
  end.

Definition replay (w : world) (files : gmap string string) (t : list event)
    : gmap string string :=
  fold_left (apply_event w) t files.

(** [chain w hdrs url s pages s']: from state [s], fetching [url] and then
    following the ["next"] links fetches [pages], in this order, the last of
    them carrying no ["next"] link, and ends in state [s']. *)
Inductive chain (w : world) (hdrs : gmap string string)
    : string -> state -> list response -> state -> Prop :=
| chain_last url s r s' :
    fetch_url w (Some url) hdrs s = (s', Ok r) ->
    links r !! "next" = None ->
    chain w hdrs url s [r] s'
| chain_next url s r s' link url' pages s'' :
    fetch_url w (Some url) hdrs s = (s', Ok r) ->
    links r !! "next" = Some link ->
    link !! "url" = Some url' ->
    chain w hdrs url' s' pages s'' ->
    chain w hdrs url s (r :: pages) s''.

Definition bodies (pages : list response) : string :=
  foldr (fun r acc => text r +:+ acc) "" pages.

(** The remote does not change: its answer to a request does not depend on
    when the request is made. *)
Definition stationary (w : world) : Prop :=
  forall n url hdrs, server w n url hdrs = server w 0 url hdrs.

(** [partial_chain w hdrs url s pages url' s']: from state [s], fetching
    [url] and following the ["next"] links fetches [pages], in this order,
    every one of them naming a next URL; the last of these is [url'], not
    yet requested in the state [s'] that is reached. *)
Inductive partial_chain (w : world) (hdrs : gmap string string)
    : string -> state -> list response -> string -> state -> Prop :=
| partial_nil url s :
    partial_chain w hdrs url s [] url s
| partial_cons url s r s' link url1 pages url' s'' :
    fetch_url w (Some url) hdrs s = (s', Ok r) ->
    links r !! "next" = Some link ->
    link !! "url" = Some url1 ->
    partial_chain w hdrs url1 s' pages url' s'' ->
    partial_chain w hdrs url s (r :: pages) url' s''.

(** Whether line 103 lets the group through. *)
Definition has_id (group : gmap string jvalue) : bool :=
  truthy (default JNull (group !! "id")).

(** Lines 101-107: the loop over the groups. *)
Definition sync_groups (w : world) (zotero_headers : gmap string string)
    (groups : list (gmap string jvalue)) : M unit :=
  for_each groups
    (fun group =>
       let group_id := default JNull (group !! "id") in
       if truthy group_id then
         download_and_write_bib w zotero_headers
           (group_items_url (format group_id))
           (format group_id +:+ ".bib")
       else ret tt).

(** Lines 92-109: what [main] does once the user's library is synced. *)
Definition sync_all_groups (w : world) (zotero_user_id : string)
    (zotero_headers : gmap string string) : M unit :=
  log INFO MsgDownloadingGroups ;;;
  groups_response <-
    fetch_url w (Some (user_groups_url zotero_user_id)) zotero_headers ;;
  groups <- of_option JSONDecodeError (json groups_response) ;;
  sync_groups w zotero_headers groups ;;;
  log INFO MsgDone.

(** The header mapping that [main] builds on line 85. *)
Definition bearer (zotero_bearer_token : string) : gmap string string :=
  {[ "Authorization" := "Bearer " +:+ zotero_bearer_token ]}.

(** Whether the text [s] begins with [p]. *)
Fixpoint starts_with (p s : string) : bool :=
  match p with
  | EmptyString => true
  | String a p' =>
      match s with
      | EmptyString => false
      | String b s' => Ascii.eqb a b && starts_with p' s'
      end
  end.

(** An event of a run that sends [hdrs] with every request and keeps its
    files under [bibliography/]. *)
Definition event_ok (hdrs : gmap string string) (ev : event) : bool :=
  match ev with
  | EvGet _ h => bool_decide (h = hdrs)
  | EvLog _ _ => true
  | EvOpen path _ | EvWrite path _ | EvClose path =>
      starts_with "bibliography/" path
  end.

(** [grows_by P s s']: the trace of [s'] is that of [s] followed by events
    that all satisfy [P]. *)
Definition grows_by (P : event -> bool) (s s' : state) : Prop :=
  exists t, trace s' = (trace s ++ t)%list /\ Forall (fun ev => P ev = true) t.

(** [respects rel m]: every run of [m] relates the state it starts in to the
    state it ends in, whatever its outcome. *)
Definition respects {A} (rel : state -> state -> Prop) (m : M A) : Prop :=
  forall s s' r, m s = (s', r) -> rel s s'.

(** The last character of a text, [d] when it is empty. *)
Fixpoint last_char (s : string) (d : ascii) : ascii :=
  match s with
  | EmptyString => d
  | String c s' => last_char s' c
  end.

(** The stem of the output name of a resource: the user's library ([None])
    or the group with the integer id [n]. *)
Definition stem_of (resource : option Z) : string :=
  match resource with
  | None => "zotero"
  | Some n => Py.str n
  end.

(** ** Sample inputs *)

Module Sample.

Definition page (version : option string) (body : string) (next : option string)
    : response :=
  {| status_code := 200;
     headers :=
       match version with
       | Some v => {[ "last-modified-version" := v ]}
       | None => ∅
       end;
     links :=
       match next with
       | Some u => {[ "next" := {[ "url" := u; "rel" := "next" ]} ]}
       | None => ∅
       end;
     text := body;
     json := None |}.

Definition status_page (code : Z) : response :=
  {| status_code := code; headers := ∅; links := ∅; text := ""; json := None |}.

(** Three linked pages with bodies A, B and C at version 9. *)
Definition three_pages (n : nat) (url : string) (hdrs : gmap string string)
    : result response :=
  if String.eqb url "u1" then Ok (page (Some "9") "A" (Some "u2"))
  else if String.eqb url "u2" then Ok (page (Some "9") "B" (Some "u3"))
  else if String.eqb url "u3" then Ok (page (Some "9") "C" None)
  else Raise TransportError.

(** A remote that fails twice, by a transport error and by a 503, before it
    answers. *)
Definition flaky (n : nat) (url : string) (hdrs : gmap string string)
    : result response :=
  match n with
  | O => Raise TransportError
  | S O => Ok (status_page 503)
  | _ => Ok (page (Some "9") "A" None)
  end.

(** A remote that denies access to everything. *)
Definition forbidden (n : nat) (url : string) (hdrs : gmap string string)
    : result response :=
  Ok (status_page 403).

(** The user library is at version 9; the user belongs to groups 1 and 2;
    access to the items of group 1 is denied. *)
Definition group_1_forbidden (n : nat) (url : string) (hdrs : gmap string string)
    : result response :=
  if String.eqb url "https://api.zotero.org/users/42/items?v=3&format=biblatex"
  then Ok (page (Some "9") "ABC" None)
  else if String.eqb url "https://api.zotero.org/users/42/groups/"
  then Ok {| status_code := 200; headers := ∅; links := ∅; text := "";
             json := Some [ {[ "id" := JInt 1 ]}; {[ "id" := JInt 2 ]} ] |}
  else if String.eqb url "https://api.zotero.org/groups/1/items?v=3&format=biblatex"
  then Ok (status_page 403)
  else Ok (page (Some "4") "G" None).

(** A first page that names a second one, the fetch of which raises [e]. *)
Definition second_page_raises (e : exn) (n : nat) (url : string)
    (hdrs : gmap string string) : result response :=
  if String.eqb url "u1" then Ok (page (Some "9") "A" (Some "u2")) else Raise e.

(** A page that names itself as the next one. *)
Definition looping (n : nat) (url : string) (hdrs : gmap string string)
    : result response :=
  Ok (page (Some "9") "A" (Some "u1")).

(** A remote whose version header is not the text of an integer. *)
Definition odd_version (n : nat) (url : string) (hdrs : gmap string string)
    : result response :=
  Ok (page (Some "9.5") "A" None).

(** A remote that cannot be reached: every attempt ends in a connect
    timeout, 60 seconds after it began. *)
Definition slow_connect : world :=
  {| env := ∅;
     server := fun _ _ _ => Raise TransportError;
     started_at := fun n => Z.of_nat n * 61000;
     finished_at := fun n => Z.of_nat n * 61000 + 60000;
     wr_denied := fun _ => false;
     wr_error := fun _ => PermissionError;
     recursion_limit := 1000 |}.

(** A client that turns the URL down. *)
Definition invalid_url (n : nat) (url : string) (hdrs : gmap string string)
    : result response :=
  Raise (OtherError "InvalidURL").

(** A remote whose answer carries no version header. *)
Definition unversioned (n : nat) (url : string) (hdrs : gmap string string)
    : result response :=
  Ok (page None "A" None).

Definition world_of (srv : nat -> string -> gmap string string -> result response)
    : world :=
  {| env := {[ "ZOTERO_USER_ID" := "42"; "ZOTERO_BEARER_TOKEN" := "secret" ]};
     server := srv;
     started_at := fun n => Z.of_nat n * 1000;
     finished_at := fun n => Z.of_nat n * 1000 + 200;
     wr_denied := fun _ => false;
     wr_error := fun _ => PermissionError;
     recursion_limit := 1000 |}.

Definition no_token : world :=
  {| env := {[ "ZOTERO_USER_ID" := "42" ]};
     server := three_pages;
     started_at := fun n => Z.of_nat n * 1000;
     finished_at := fun n => Z.of_nat n * 1000 + 200;
     wr_denied := fun _ => false;
     wr_error := fun _ => PermissionError;
     recursion_limit := 1000 |}.

(** A world in which the marker file of [zotero.bib] cannot be opened for
    writing. *)
Definition marker_locked : world :=
  {| env := ∅;
     server := three_pages;
     started_at := fun n => Z.of_nat n * 1000;
     finished_at := fun n => Z.of_nat n * 1000 + 200;
     wr_denied := fun path => String.eqb path (marker_path "zotero.bib");
     wr_error := fun _ => PermissionError;
     recursion_limit := 1000 |}.

Definition disk (files : gmap string string) : state :=
  {| fs := files; clock := 0; trace := [] |}.

(** A cached marker at version 7 next to an older bibliography. *)
Definition at_version_7 : state :=
  disk {[ marker_path "zotero.bib" := "7"; content_path "zotero.bib" := "old" ]}.

Definition at_version_9 : state :=
  disk {[ marker_path "zotero.bib" := "9"; content_path "zotero.bib" := "ABC" ]}.

(** The state the probe of ["u1"] leaves behind when it starts from [s] and
    succeeds at once. *)
Definition probed (s : state) : state :=
  {| fs := fs s; clock := 1;
     trace := [EvGet "u1" ∅; EvLog INFO (MsgReturned "u1" 200)] |}.

Definition abc_pages : list response :=
  [page (Some "9") "A" (Some "u2"); page (Some "9") "B" (Some "u3");
   page (Some "9") "C" None].

Definition corrupt_marker : state :=
  disk {[ marker_path "zotero.bib" := "seven" ]}.

End Sample.

(** * Properties *)

Local Open Scope list_scope.

(** ** The integer conversions *)

Example int_plain : Py.int "12" = Some 12. Proof. reflexivity. Qed.
Example int_spaces : Py.int (String Py.LF " -7 ") = Some (-7). Proof. reflexivity. Qed.
Example int_grouped : Py.int "1_000" = Some 1000. Proof. reflexivity. Qed.
Example int_bad_group : Py.int "1__0" = None. Proof. reflexivity. Qed.
Example int_empty : Py.int "" = None. Proof. reflexivity. Qed.
Example int_sign_only : Py.int "-" = None. Proof. reflexivity. Qed.
Example int_separator :
  Py.int (String (ascii_of_nat 28) "12") = None. Proof. reflexivity. Qed.
Example str_of_zero : Py.str 0 = "0". Proof. reflexivity. Qed.
Example str_of_negative : Py.str (-305) = "-305". Proof. reflexivity. Qed.

Module PyFacts.
Import Py.

Lemma digits_string_of_uint (d : uint) (acc : Z) :
  digits acc (NilEmpty.string_of_uint d) = Some (uint_val acc d).
Proof.
  revert acc; induction d; intros acc; simpl; try apply IHd; reflexivity.
Qed.

Lemma all_digits_string_of_uint (d : uint) :
  all_chars is_digit (NilEmpty.string_of_uint d) = true.
Proof. induction d; simpl; auto. Qed.

Lemma unsigned_string_of_uint (d : uint) :
  d <> Nil -> unsigned (NilEmpty.string_of_uint d) = Some (uint_val 0 d).
Proof.
  destruct d; try congruence; intros _; simpl; apply digits_string_of_uint.
Qed.

Lemma of_uint_acc_val (d : uint) (acc : positive) :
  Z.pos (Pos.of_uint_acc d acc) = uint_val (Z.pos acc) d.
Proof.
  revert acc; induction d; intros acc; simpl; try rewrite IHd;
    try reflexivity; f_equal; lia.
Qed.

Lemma of_uint_val (d : uint) : Z.of_N (Pos.of_uint d) = uint_val 0 d.
Proof.
  induction d; simpl; try exact IHd; try reflexivity;
    rewrite of_uint_acc_val; reflexivity.
Qed.

Lemma to_uint_val (p : positive) : uint_val 0 (Pos.to_uint p) = Z.pos p.
Proof.
  rewrite <- of_uint_val, DecimalPos.Unsigned.of_to. reflexivity.
Qed.

Lemma to_uint_not_nil (p : positive) : Pos.to_uint p <> Nil.
Proof.
  intros E. pose proof (DecimalPos.Unsigned.of_to p) as H.
  rewrite E in H. discriminate.
Qed.

Lemma digit_not_space (c : ascii) : is_digit c = true -> is_space c = false.
Proof.
  destruct c as [[] [] [] [] [] [] [] []]; vm_compute; congruence.
Qed.

Lemma digit_not_line_end (c : ascii) :
  is_digit c = true -> Ascii.eqb c LF || Ascii.eqb c CR = false.
Proof.
  destruct c as [[] [] [] [] [] [] [] []]; vm_compute; congruence.
Qed.

Lemma digit_not_sign (c : ascii) :
  is_digit c = true -> Ascii.eqb c "+" = false /\ Ascii.eqb c "-" = false.
Proof.
  destruct c as [[] [] [] [] [] [] [] []]; vm_compute; intuition congruence.
Qed.

Lemma readline_digits (s : string) :
  all_chars is_digit s = true -> readline s = s.
Proof.
  induction s as [|c s IH]; simpl; [reflexivity|].
  intros [Hc Hs]%andb_prop. rewrite (digit_not_line_end c Hc), IH; auto.
Qed.

Lemma lstrip_digits (s : string) :
  all_chars is_digit s = true -> lstrip s = s.
Proof.
  destruct s as [|c s]; simpl; [reflexivity|].
  intros [Hc _]%andb_prop. rewrite (digit_not_space c Hc). reflexivity.
Qed.

Lemma rstrip_digits (s : string) :
  all_chars is_digit s = true -> rstrip s = s.
Proof.
  induction s as [|c s IH]; simpl; [reflexivity|].
  intros [Hc Hs]%andb_prop. rewrite IH by assumption.
  destruct s; [rewrite (digit_not_space c Hc)|]; reflexivity.
Qed.

Lemma rstrip_cons_digits (c : ascii) (s : string) :
  s <> EmptyString -> all_chars is_digit s = true ->
  rstrip (String c s) = String c s.
Proof.
  intros Hne Hs. simpl. rewrite rstrip_digits by assumption.
  destruct s; congruence.
Qed.

(** The numeral of a positive number: non-empty, digits only, and read
    back as the number. *)
Lemma numeral_pos (p : positive) :
  let s := NilEmpty.string_of_uint (Pos.to_uint p) in
  s <> EmptyString /\ all_chars is_digit s = true /\ unsigned s = Some (Z.pos p).
Proof.
  cbn zeta. split; [|split].
  - pose proof (to_uint_not_nil p). destruct (Pos.to_uint p); simpl; congruence.
  - apply all_digits_string_of_uint.
  - rewrite unsigned_string_of_uint by apply to_uint_not_nil.
    rewrite to_uint_val. reflexivity.
Qed.

Lemma str_pos (p : positive) :
  str (Z.pos p) = NilEmpty.string_of_uint (Pos.to_uint p).
Proof.
  unfold str; simpl. pose proof (to_uint_not_nil p).
  unfold NilZero.string_of_uint. destruct (Pos.to_uint p); congruence.
Qed.

Lemma str_neg (p : positive) :
  str (Z.neg p) = String "-" (NilEmpty.string_of_uint (Pos.to_uint p)).
Proof.
  unfold str; simpl. pose proof (to_uint_not_nil p).
  unfold NilZero.string_of_uint. destruct (Pos.to_uint p); congruence.
Qed.

Lemma readline_str (n : Z) : readline (str n) = str n.
Proof.
  destruct n as [|p|p]; [reflexivity| |].
  - rewrite str_pos. apply readline_digits, all_digits_string_of_uint.
  - rewrite str_neg. simpl. f_equal.
    apply readline_digits, all_digits_string_of_uint.
Qed.

Lemma int_str (n : Z) : int (str n) = Some n.
Proof.
  destruct n as [|p|p]; [reflexivity| |].
  - rewrite str_pos. destruct (numeral_pos p) as (Hne & Hd & Hu).
    unfold int, strip. rewrite lstrip_digits, rstrip_digits by assumption.
    destruct (NilEmpty.string_of_uint (Pos.to_uint p)) as [|c r] eqn:E;
      [congruence|].
    simpl in Hd. apply andb_prop in Hd as [Hc _].
    destruct (digit_not_sign c Hc) as [-> ->]. exact Hu.
  - rewrite str_neg. destruct (numeral_pos p) as (Hne & Hd & Hu).
    unfold int, strip. cbn [lstrip]. replace (is_space "-") with false by reflexivity.
    rewrite rstrip_cons_digits by assumption.
    replace (Ascii.eqb "-" "+") with false by reflexivity.
    replace (Ascii.eqb "-" "-") with true by reflexivity.
    rewrite Hu. reflexivity.
Qed.

Lemma int_readline_str (n : Z) : int (readline (str n)) = Some n.
Proof. rewrite readline_str. apply int_str. Qed.

End PyFacts.

(** ** The HTTP Fetcher *)

Section Fetcher.

Context (w : world).

Lemma fetch_url_body_eq (url : string) (hdrs : gmap string string) (s : state) :
  fetch_url_body w (Some url) hdrs s =
  match attempt_outcome w (clock s) url hdrs with
  | Ok r =>
      ({| fs := fs s; clock := S (clock s);
          trace := (trace s ++ [EvGet url hdrs])
                     ++ [EvLog INFO (MsgReturned url (status_code r))] |}, Ok r)
  | Raise e =>
      ({| fs := fs s; clock := S (clock s);
          trace := trace s ++ [EvGet url hdrs] |}, Raise e)
  end.
Proof.
  unfold fetch_url_body, attempt_outcome, bind, client_get, raise_for_status.
  simpl. destruct (server w (clock s) url hdrs) as [r|e]; [|reflexivity].
  destruct (is_success r); reflexivity.
Qed.

Lemma retry_loop_fetched (again : nat -> bool) (url : string)
    (hdrs : gmap string string) (more : nat) :
  forall s s' r,
    retry_loop is_HTTPError again more (fetch_url_body w (Some url) hdrs) s = (s', r) ->
    exists n t, fetched w again url hdrs (S more) s s' r n t.
Proof.
  induction more as [|k IH]; intros s s' r; simpl; rewrite fetch_url_body_eq.
  - destruct (attempt_outcome w (clock s) url hdrs) as [a|e] eqn:E;
      intros [= <- <-]; simpl.
    + exists 1%nat, [EvGet url hdrs; EvLog INFO (MsgReturned url (status_code a))].
      unfold fetched; simpl. rewrite Nat.add_0_r, <- app_assoc.
      repeat split; auto; try lia; try discriminate; repeat constructor.
    + exists 1%nat, [EvGet url hdrs].
      unfold fetched; simpl. rewrite Nat.add_0_r.
      repeat split; auto; try lia; repeat constructor.
  - destruct (attempt_outcome w (clock s) url hdrs) as [a|e] eqn:E.
    + intros [= <- <-]; simpl.
      exists 1%nat, [EvGet url hdrs; EvLog INFO (MsgReturned url (status_code a))].
      unfold fetched; simpl. rewrite Nat.add_0_r, <- app_assoc.
      repeat split; auto; try lia; try discriminate; repeat constructor.
    + cbn [clock]. destruct (is_HTTPError e) eqn:He;
        [destruct (again (S (clock s))) eqn:Ha|]; cbn [andb].
      * intros H. apply IH in H
          as (n & t & Hn & Hc & Hf & Ht & Hnet & Hg & Hb & Hr & Hl & Hi).
        simpl in *. exists (S n), (EvGet url hdrs :: t).
        unfold fetched; simpl. rewrite Hc, Hf, Ht, <- app_assoc. simpl.
        split; [lia|]. split; [lia|]. split; [reflexivity|].
        split; [reflexivity|]. split; [constructor; auto|].
        split; [congruence|]. split; [|split; [|split]].
        -- intros [|i] Hlt.
           ++ rewrite Nat.add_0_r. exists e; auto.
           ++ replace (clock s + S i)%nat with (S (clock s + i)) by lia.
              apply Hb. lia.
        -- rewrite Hr. f_equal. lia.
        -- intros e' He' Hh. destruct (Hl e' He' Hh) as [Hl' | Hl'].
           ++ left. lia.
           ++ right. rewrite <- Hl'. f_equal. lia.
        -- intros [|i] Hlt.
           ++ rewrite Nat.add_1_r. exact Ha.
           ++ replace (clock s + S (S i))%nat with (S (clock s + S i)) by lia.
              apply Hi. lia.
      * intros [= <- <-]; simpl. exists 1%nat, [EvGet url hdrs].
        unfold fetched; simpl. rewrite Nat.add_0_r, Nat.add_1_r.
        repeat split; auto; try lia; try (repeat constructor; fail).
      * intros [= <- <-]; simpl. exists 1%nat, [EvGet url hdrs].
        unfold fetched; simpl. rewrite Nat.add_0_r.
        repeat split; auto; try lia; try (repeat constructor; fail).
        intros e' [= <-]. congruence.
Qed.

Lemma fetch_url_fetched (url : string) (hdrs : gmap string string) (s s' : state)
    (r : result response) :
  fetch_url w (Some url) hdrs s = (s', r) ->
  exists n t,
    fetched w (in_time w stamina_timeout (clock s)) url hdrs 3 s s' r n t.
Proof. apply retry_loop_fetched. Qed.

End Fetcher.

(** C6, as the code has it.  [fetch_url] issues between one and three GET
    requests.  Every attempt before the last one failed with an [HTTPError]
    (a transport error or an error status) at a moment when stamina's time
    limit, 45 seconds from the start of the first attempt, had not passed;
    the result is the outcome of the last attempt; an [HTTPError] reaches
    the caller after the third attempt, or after an earlier one when the
    time limit has passed by then; and the first attempt among the three
    that succeeds, the earlier ones having failed with an [HTTPError] within
    the time limit, gives the returned response. *)
Theorem fetch_url_attempts_within_time_limit (w : world) (url : string)
    (hdrs : gmap string string) (s s' : state) (r : result response) :
  fetch_url w (Some url) hdrs s = (s', r) ->
  exists n t,
    trace s' = (trace s ++ t)%list /\
    length (filter (fun ev => is_get ev = true) t) = n /\
    (1 <= n <= 3)%nat /\
    (forall i, (i < n - 1)%nat ->
       fails_with_HTTPError (attempt_outcome w (clock s + i) url hdrs) /\
       in_time w stamina_timeout (clock s) (clock s + S i) = true) /\
    r = attempt_outcome w (clock s + (n - 1)) url hdrs /\
    (forall e, r = Raise e -> is_HTTPError e = true ->
       n = 3%nat \/ in_time w stamina_timeout (clock s) (clock s + n) = false) /\
    (forall k resp, (k < 3)%nat ->
       (forall j, (j < k)%nat ->
          fails_with_HTTPError (attempt_outcome w (clock s + j) url hdrs) /\
          in_time w stamina_timeout (clock s) (clock s + S j) = true) ->
       attempt_outcome w (clock s + k) url hdrs = Ok resp ->
       r = Ok resp).
Proof.
  intros H. apply fetch_url_fetched in H
    as (n & t & Hn & Hc & Hf & Ht & Hnet & Hg & Hb & Hr & Hl & Hi).
  exists n, t. repeat split; auto; try lia.
  intros k resp Hk Hprev Hok.
  destruct (lt_eq_lt_dec k (n - 1)) as [[Hlt | Heq] | Hgt].
  - destruct (Hb k Hlt) as (e & He & _). congruence.
  - subst k. congruence.
  - destruct (Hprev (n - 1)%nat Hgt) as [(e & He & Hh) Hin].
    rewrite <- Hr in He. destruct (Hl e He Hh) as [Hl' | Hl']; [lia|].
    replace (clock s + S (n - 1))%nat with (clock s + n)%nat in Hin by lia.
    congruence.
Qed.

Lemma fetch_url_attempts_within_time_limit_witness :
  let w := Sample.world_of Sample.flaky in
  let s := Sample.disk ∅ in
  let out := fetch_url w (Some "u1") ∅ s in
  exists n t,
    trace (fst out) = (trace s ++ t)%list /\
    length (filter (fun ev => is_get ev = true) t) = n /\
    (1 <= n <= 3)%nat /\
    (forall i, (i < n - 1)%nat ->
       fails_with_HTTPError (attempt_outcome w (clock s + i) "u1" ∅) /\
       in_time w stamina_timeout (clock s) (clock s + S i) = true) /\
    snd out = attempt_outcome w (clock s + (n - 1)) "u1" ∅ /\
    (forall e, snd out = Raise e -> is_HTTPError e = true ->
       n = 3%nat \/ in_time w stamina_timeout (clock s) (clock s + n) = false) /\
    (forall k resp, (k < 3)%nat ->
       (forall j, (j < k)%nat ->
          fails_with_HTTPError (attempt_outcome w (clock s + j) "u1" ∅) /\
          in_time w stamina_timeout (clock s) (clock s + S j) = true) ->
       attempt_outcome w (clock s + k) "u1" ∅ = Ok resp ->
       snd out = Ok resp).
Proof.
  intros w s out.
  apply (fetch_url_attempts_within_time_limit w "u1" ∅ s (fst out) (snd out)).
  vm_compute. reflexivity.
Defined.

(** C6, as the claim states it, fails.  The client waits up to 60 seconds
    for a connection (line 73).  When the first attempt ends in a connect
    timeout after these 60 seconds, stamina's 45 seconds have passed:
    [fetch_url] raises the error after this one attempt, the second and the
    third attempt are never made. *)
Lemma fetch_url_raises_before_three_attempts :
  let out := fetch_url Sample.slow_connect (Some "u1") ∅ (Sample.disk ∅) in
  snd out = Raise TransportError /\
  is_HTTPError TransportError = true /\
  trace (fst out) = [EvGet "u1" ∅] /\
  clock (fst out) <> 3%nat.
Proof. vm_compute. repeat split; discriminate. Qed.

Example fetch_url_flaky :
  let out := fetch_url (Sample.world_of Sample.flaky) (Some "u1") ∅ (Sample.disk ∅) in
  snd out = Ok (Sample.page (Some "9") "A" None) /\ clock (fst out) = 3%nat.
Proof. vm_compute. split; reflexivity. Qed.

Example fetch_url_exhausted :
  let out := fetch_url (Sample.world_of Sample.forbidden) (Some "u1") ∅ (Sample.disk ∅) in
  snd out = Raise (HTTPStatusError 403) /\
  trace (fst out) = [EvGet "u1" ∅; EvGet "u1" ∅; EvGet "u1" ∅].
Proof. vm_compute. split; reflexivity. Qed.

(** ** Files *)

Section Files.

Context (w : world).

Lemma read_cached_version_eq (file_name : string) (s : state) :
  read_cached_version file_name s =
  ({| fs := fs s; clock := clock s;
      trace := trace s ++ EvOpen (marker_path file_name) R
                 :: cache_log (fs s) file_name |},
   Ok (cached_version_of (fs s) file_name)).
Proof.
  unfold read_cached_version, try_except, bind, open_readline, bind, emit,
    cached_version_of, cache_log, py_int, of_option, log, emit.
  simpl. destruct (fs s !! marker_path file_name) as [content|]; simpl;
    [|reflexivity].
  destruct (Py.int (Py.readline content)) as [v|]; simpl;
    [rewrite <- app_assoc|]; reflexivity.
Qed.

Lemma with_open_w_denied {A} (path : string) (body : M A) (s : state) :
  wr_denied w path = true ->
  with_open_w w path body s =
  ({| fs := fs s; clock := clock s; trace := trace s ++ [EvOpen path W] |},
   Raise (wr_error w path)).
Proof.
  intros H. unfold with_open_w, open_w, bind, emit. simpl. rewrite H. reflexivity.
Qed.

Lemma write_file_eq (path data : string) (msg : message) (s : state) :
  wr_denied w path = false ->
  with_open_w w path (file_write path data ;;; log INFO msg) s =
  ({| fs := <[path := data]> (fs s); clock := clock s;
      trace := trace s ++ write_events path data msg |}, Ok tt).
Proof.
  intros H. unfold with_open_w, open_w, file_write, bind, log, emit, write_events.
  simpl. rewrite H. simpl. rewrite lookup_insert_eq. simpl.
  rewrite insert_insert_eq. repeat rewrite <- app_assoc. reflexivity.
Qed.

Lemma write_content_eq (file_name content : string) (s : state) :
  wr_denied w (content_path file_name) = false ->
  write_content w file_name content s =
  ({| fs := <[content_path file_name := content]> (fs s); clock := clock s;
      trace := trace s ++ write_events (content_path file_name) content
                            (MsgFileUpdated file_name) |}, Ok tt).
Proof. apply write_file_eq. Qed.

Lemma write_marker_eq (file_name : string) (latest : Z) (s : state) :
  wr_denied w (marker_path file_name) = false ->
  write_marker w file_name latest s =
  ({| fs := <[marker_path file_name := Py.str latest]> (fs s); clock := clock s;
      trace := trace s ++ write_events (marker_path file_name) (Py.str latest)
                            (MsgMarkerUpdated latest) |}, Ok tt).
Proof. apply write_file_eq. Qed.

Lemma string_app_length (a b : string) :
  String.length (a +:+ b) = (String.length a + String.length b)%nat.
Proof. induction a; simpl; auto. Qed.

Lemma string_app_nil_r (a : string) : a +:+ "" = a.
Proof. induction a as [|c a IH]; [reflexivity | exact (f_equal (String c) IH)]. Qed.

Lemma content_marker_distinct (file_name : string) :
  content_path file_name <> marker_path file_name.
Proof.
  unfold content_path, marker_path. intros E.
  apply (f_equal String.length) in E.
  repeat rewrite string_app_length in E. simpl in E. lia.
Qed.

Lemma cached_version_of_str (files : gmap string string) (file_name : string) (n : Z) :
  files !! marker_path file_name = Some (Py.str n) ->
  cached_version_of files file_name = n.
Proof.
  intros H. unfold cached_version_of. rewrite H, PyFacts.int_readline_str.
  reflexivity.
Qed.

End Files.

(** A marker that begins with the separator 28 is not the text of an
    integer: the cached version is 0, whatever digits follow. *)
Example cached_version_of_separator_marker :
  cached_version_of
    {[ marker_path "zotero.bib" := String (ascii_of_nat 28) "12" ]} "zotero.bib"
  = 0%Z.
Proof. reflexivity. Qed.

(** C10.  Where the marker file can be opened for writing, the marker-write
    step for an integer [n] succeeds, and the Version Cache read that follows
    it for the same output name yields [n]. *)
Theorem marker_write_read_round_trip (w : world) (file_name : string) (n : Z)
    (s : state) :
  wr_denied w (marker_path file_name) = false ->
  exists s1 s2,
    write_marker w file_name n s = (s1, Ok tt) /\
    read_cached_version file_name s1 = (s2, Ok n).
Proof.
  intros H. eexists _, _. split; [apply write_marker_eq, H|].
  rewrite read_cached_version_eq. simpl. f_equal. f_equal.
  apply cached_version_of_str, lookup_insert_eq.
Qed.

Lemma marker_write_read_round_trip_witness :
  exists s1 s2,
    write_marker (Sample.world_of Sample.three_pages) "zotero.bib" (-12)
      Sample.at_version_7 = (s1, Ok tt) /\
    read_cached_version "zotero.bib" s1 = (s2, Ok (-12)).
Proof.
  apply (marker_write_read_round_trip (Sample.world_of Sample.three_pages)
           "zotero.bib" (-12) Sample.at_version_7).
  reflexivity.
Defined.

(** ** The Paginator *)

Section Paginator.

Context (w : world).

Lemma quiet_refl (s : state) : quiet s s.
Proof. split; [reflexivity|]. exists []. rewrite app_nil_r. auto. Qed.

Lemma quiet_trans (s1 s2 s3 : state) : quiet s1 s2 -> quiet s2 s3 -> quiet s1 s3.
Proof.
  intros [Hf1 (t1 & Ht1 & Hn1)] [Hf2 (t2 & Ht2 & Hn2)]. split; [congruence|].
  exists (t1 ++ t2). rewrite Ht2, Ht1, app_assoc. split; [reflexivity|].
  apply Forall_app; auto.
Qed.

Lemma fetch_url_none (hdrs : gmap string string) (s : state) :
  fetch_url w None hdrs s = (s, Raise TypeError).
Proof. reflexivity. Qed.

Lemma fetch_url_quiet (url : option string) (hdrs : gmap string string)
    (s s' : state) (r : result response) :
  fetch_url w url hdrs s = (s', r) -> quiet s s'.
Proof.
  destruct url as [u|].
  - intros H. apply fetch_url_fetched in H as (n & t & Hf).
    destruct Hf as (_ & _ & Hfs & Ht & Hnet & _).
    split; [exact Hfs|]. exists t. split; [exact Ht|].
    eapply Forall_impl; [exact Hnet|]. intros []; simpl; congruence.
  - rewrite fetch_url_none. intros [= <- _]. apply quiet_refl.
Qed.

Lemma fetch_url_ok_success (url : option string) (hdrs : gmap string string)
    (s s' : state) (r : response) :
  fetch_url w url hdrs s = (s', Ok r) -> is_success r = true.
Proof.
  destruct url as [u|]; [|rewrite fetch_url_none; discriminate].
  intros H. apply fetch_url_fetched in H as (n & t & Hf).
  destruct Hf as (_ & _ & _ & _ & _ & _ & _ & Hr & _).
  unfold attempt_outcome in Hr.
  destruct (server w (clock s + (n - 1)) u hdrs) as [r'|]; [|discriminate].
  destruct (is_success r') eqn:E; congruence.
Qed.

Lemma follow_and_extract_S (d : nat) (url : option string)
    (hdrs : gmap string string) (s : state) :
  follow_and_extract w (S d) url hdrs s =
  match fetch_url w url hdrs s with
  | (s1, Raise e) => (s1, Raise e)
  | (s1, Ok request) =>
      match links request !! "next" with
      | None => (s1, Ok (text request))
      | Some link =>
          match follow_and_extract w d (link !! "url") hdrs s1 with
          | (s2, Ok rest) => (s2, Ok (text request +:+ rest))
          | (s2, Raise KeyError) => (s2, Ok (text request))
          | (s2, Raise e) => (s2, Raise e)
          end
      end
  end.
Proof.
  simpl. unfold bind, try_except, of_option.
  destruct (fetch_url w url hdrs s) as [s1 [request|e]]; [|reflexivity].
  destruct (links request !! "next") as [link|]; [|reflexivity].
  unfold bind, ret, raise.
  destruct (follow_and_extract w d (link !! "url") hdrs s1) as [s2 [rest|e]];
    [reflexivity|].
  destruct e; reflexivity.
Qed.

Lemma follow_and_extract_quiet (d : nat) :
  forall url hdrs s s' r,
    follow_and_extract w d url hdrs s = (s', r) -> quiet s s'.
Proof.
  induction d as [|d IH]; intros url hdrs s s' r.
  - simpl. intros [= <- _]. apply quiet_refl.
  - rewrite follow_and_extract_S.
    destruct (fetch_url w url hdrs s) as [s1 [request|e]] eqn:F;
      apply fetch_url_quiet in F; [|intros [= <- _]; exact F].
    destruct (links request !! "next") as [link|]; [|intros [= <- _]; exact F].
    destruct (follow_and_extract w d (link !! "url") hdrs s1) as [s2 r2] eqn:G.
    apply IH in G. intros H.
    assert (s' = s2) as -> by (destruct r2 as [|[]]; congruence).
    eapply quiet_trans; eauto.
Qed.

(** Enough depth for the chain gives the concatenation of its bodies. *)
Lemma follow_and_extract_chain (hdrs : gmap string string) (url : string)
    (s s' : state) (pages : list response) :
  chain w hdrs url s pages s' ->
  forall d, (length pages <= d)%nat ->
    follow_and_extract w d (Some url) hdrs s = (s', Ok (bodies pages)).
Proof.
  induction 1 as [url s r s' F L | url s r s' link url' pages s'' F L U C IH];
    intros d Hd; (destruct d as [|d]; [simpl in Hd; lia|]);
    rewrite follow_and_extract_S, F, L.
  - simpl. rewrite string_app_nil_r. reflexivity.
  - rewrite U, (IH d) by (simpl in Hd; lia). reflexivity.
Qed.

Lemma retry_loop_clock (again : nat -> bool) (url : string)
    (hdrs : gmap string string) (more : nat) :
  forall s sa s' r,
    clock sa = clock s ->
    retry_loop is_HTTPError again more (fetch_url_body w (Some url) hdrs) s
    = (s', r) ->
    exists sa',
      retry_loop is_HTTPError again more (fetch_url_body w (Some url) hdrs) sa
      = (sa', r)
      /\ clock sa' = clock s'.
Proof.
  induction more as [|k IH]; intros s sa s' r Hc; simpl;
    rewrite !fetch_url_body_eq, Hc;
    destruct (attempt_outcome w (clock s) url hdrs) as [a|e].
  - intros [= <- <-]. eexists; split; [reflexivity|]. simpl; lia.
  - intros [= <- <-]. eexists; split; [reflexivity|]. simpl; lia.
  - intros [= <- <-]. eexists; split; [reflexivity|]. simpl; lia.
  - cbn [clock]. destruct (is_HTTPError e && again (S (clock s))).
    + apply IH. simpl. lia.
    + intros [= <- <-]. eexists; split; [reflexivity|]. simpl; lia.
Qed.

Lemma fetch_url_clock (url : string) (hdrs : gmap string string)
    (s sa s' : state) (r : result response) :
  clock sa = clock s ->
  fetch_url w (Some url) hdrs s = (s', r) ->
  exists sa', fetch_url w (Some url) hdrs sa = (sa', r) /\ clock sa' = clock s'.
Proof.
  intros Hc. unfold fetch_url, stamina_retry. rewrite Hc.
  apply retry_loop_clock, Hc.
Qed.

(** A chain depends on the state only through the request counter. *)
Lemma chain_clock (hdrs : gmap string string) (url : string) (s s' : state)
    (pages : list response) :
  chain w hdrs url s pages s' ->
  forall sa, clock sa = clock s ->
    exists sa', chain w hdrs url sa pages sa' /\ clock sa' = clock s'.
Proof.
  induction 1 as [url s r s' F L | url s r s' link url' pages s'' F L U C IH];
    intros sa Hc;
    destruct (fetch_url_clock _ _ _ _ _ _ Hc F) as (sa1 & Fa & Hc1).
  - exists sa1. split; [eapply chain_last; eauto | assumption].
  - destruct (IH sa1 Hc1) as (sa2 & Ca & Hc2).
    exists sa2. split; [eapply chain_next; eauto | assumption].
Qed.

End Paginator.

(** ** The Sync Orchestrator *)

Section Orchestrator.

Context (w : world).

Lemma success_not_403 (r : response) :
  is_success r = true -> (status_code r =? 403)%Z = false.
Proof. unfold is_success. lia. Qed.

Lemma download_probe_raises (hdrs : gmap string string) (url file_name : string)
    (s s1 : state) (e : exn) :
  fetch_url w (Some url) hdrs s = (s1, Raise e) ->
  download_and_write_bib w hdrs url file_name s = (s1, Raise e).
Proof. intros H. unfold download_and_write_bib, bind. rewrite H. reflexivity. Qed.

(** The run of a sync whose probe returned [r]. *)
Lemma download_after_probe (hdrs : gmap string string) (url file_name : string)
    (s s1 : state) (r : response) :
  fetch_url w (Some url) hdrs s = (s1, Ok r) ->
  download_and_write_bib w hdrs url file_name s =
  let sr := after s1 (EvOpen (marker_path file_name) R :: cache_log (fs s) file_name) in
  let cached := cached_version_of (fs s) file_name in
  match headers r !! "last-modified-version" with
  | None => (sr, Raise TypeError)
  | Some h =>
      match Py.int h with
      | None => (sr, Raise ValueError)
      | Some latest =>
          if (cached =? latest)%Z then
            (after sr [EvLog INFO (MsgNotDifferent latest cached)], Ok tt)
          else
            full_sync w hdrs url file_name latest
              (after sr [EvLog INFO (MsgDifferent latest cached)])
      end
  end.
Proof.
  intros H. unfold download_and_write_bib.
  unfold bind at 1. rewrite H.
  rewrite (success_not_403 r (fetch_url_ok_success w _ _ _ _ _ H)).
  destruct (fetch_url_quiet w _ _ _ _ _ H) as [Hfs _]. rewrite <- Hfs.
  unfold bind at 1. rewrite read_cached_version_eq.
  cbn zeta. unfold bind at 1, py_int.
  destruct (headers r !! "last-modified-version") as [h|]; [|reflexivity].
  unfold of_option. destruct (Py.int h) as [latest|]; [|reflexivity].
  unfold ret.
  destruct (cached_version_of (fs s1) file_name =? latest)%Z; [|reflexivity].
  unfold log, emit, after. simpl. rewrite <- app_assoc. reflexivity.
Qed.

End Orchestrator.

(** C9.  When the probe returns a response whose headers have no
    [last-modified-version] entry, the sync raises [TypeError], which nothing
    catches.  The persisted files are those of the start; after the probe the
    trace holds the opening of the marker file for reading and the log line
    of the cache read, if any, and nothing else: the exception comes after
    the cache read and before any file is opened for writing. *)
Theorem missing_version_header_aborts (w : world) (hdrs : gmap string string)
    (url file_name : string) (s s1 : state) (r : response) :
  fetch_url w (Some url) hdrs s = (s1, Ok r) ->
  headers r !! "last-modified-version" = None ->
  exists s',
    download_and_write_bib w hdrs url file_name s = (s', Raise TypeError) /\
    fs s' = fs s /\
    trace s' = trace s1 ++ EvOpen (marker_path file_name) R
                 :: cache_log (fs s) file_name.
Proof.
  intros H Hh. rewrite (download_after_probe w _ _ _ _ _ _ H), Hh. cbn zeta.
  eexists; split; [reflexivity|]. split; [|reflexivity].
  apply (fetch_url_quiet w _ _ _ _ _ H).
Qed.

Lemma missing_version_header_aborts_witness :
  exists s',
    download_and_write_bib (Sample.world_of Sample.unversioned) ∅ "u1" "zotero.bib"
      Sample.at_version_7 = (s', Raise TypeError) /\
    fs s' = fs Sample.at_version_7 /\
    trace s' =
      [EvGet "u1" ∅; EvLog INFO (MsgReturned "u1" 200)]
        ++ EvOpen (marker_path "zotero.bib") R
        :: cache_log (fs Sample.at_version_7) "zotero.bib".
Proof.
  apply (missing_version_header_aborts (Sample.world_of Sample.unversioned) ∅ "u1"
           "zotero.bib" Sample.at_version_7
           {| fs := fs Sample.at_version_7; clock := 1;
              trace := [EvGet "u1" ∅; EvLog INFO (MsgReturned "u1" 200)] |}
           (Sample.page None "A" None)).
  - vm_compute. reflexivity.
  - reflexivity.
Defined.

(** C4.  When the cached version equals the version in the probe's header,
    the sync returns without having done anything but read the marker and
    log: the files are unchanged, the request counter is where the probe
    left it, and after the probe the trace holds no GET and no write. *)
Theorem unchanged_version_is_noop (w : world) (hdrs : gmap string string)
    (url file_name : string) (s s1 : state) (r : response) (h : string)
    (latest : Z) :
  fetch_url w (Some url) hdrs s = (s1, Ok r) ->
  headers r !! "last-modified-version" = Some h ->
  Py.int h = Some latest ->
  cached_version_of (fs s) file_name = latest ->
  exists s',
    download_and_write_bib w hdrs url file_name s = (s', Ok tt) /\
    fs s' = fs s /\
    clock s' = clock s1 /\
    trace s' = trace s1 ++ EvOpen (marker_path file_name) R
                 :: cache_log (fs s) file_name
                 ++ [EvLog INFO (MsgNotDifferent latest latest)].
Proof.
  intros H Hh Hi Hc. rewrite (download_after_probe w _ _ _ _ _ _ H), Hh, Hi, Hc.
  cbn zeta. rewrite Z.eqb_refl.
  eexists; split; [reflexivity|]. split; [|split].
  - apply (fetch_url_quiet w _ _ _ _ _ H).
  - reflexivity.
  - simpl. rewrite <- app_assoc. reflexivity.
Qed.

Lemma unchanged_version_is_noop_witness :
  exists s',
    download_and_write_bib (Sample.world_of Sample.three_pages) ∅ "u1" "zotero.bib"
      Sample.at_version_9 = (s', Ok tt) /\
    fs s' = fs Sample.at_version_9 /\
    clock s' = 1%nat /\
    trace s' =
      [EvGet "u1" ∅; EvLog INFO (MsgReturned "u1" 200)]
        ++ EvOpen (marker_path "zotero.bib") R
        :: cache_log (fs Sample.at_version_9) "zotero.bib"
        ++ [EvLog INFO (MsgNotDifferent 9 9)].
Proof.
  apply (unchanged_version_is_noop (Sample.world_of Sample.three_pages) ∅ "u1"
           "zotero.bib" Sample.at_version_9
           {| fs := fs Sample.at_version_9; clock := 1;
              trace := [EvGet "u1" ∅; EvLog INFO (MsgReturned "u1" 200)] |}
           (Sample.page (Some "9") "A" (Some "u2")) "9" 9).
  - vm_compute. reflexivity.
  - reflexivity.
  - reflexivity.
  - vm_compute. reflexivity.
Defined.

Section FullFetch.

Context (w : world).

Lemma retry_loop_S {A} (on : exn -> bool) (again : nat -> bool) (k : nat)
    (call : M A) (s : state) :
  retry_loop on again (S k) call s =
  match call s with
  | (s', Ok a) => (s', Ok a)
  | (s', Raise e) =>
      if on e && again (clock s') then retry_loop on again k call s'
      else (s', Raise e)
  end.
Proof. reflexivity. Qed.

Lemma fetch_url_first_event (url : string) (hdrs : gmap string string)
    (s s' : state) (r : result response) :
  fetch_url w (Some url) hdrs s = (s', r) ->
  exists t, trace s' = trace s ++ EvGet url hdrs :: t.
Proof.
  unfold fetch_url, stamina_retry. change (3 - 1)%nat with 2%nat.
  rewrite retry_loop_S, fetch_url_body_eq.
  destruct (attempt_outcome w (clock s) url hdrs) as [a|e].
  - intros [= <- _]. simpl. rewrite <- app_assoc. eauto.
  - cbn [clock].
    destruct (is_HTTPError e && in_time w stamina_timeout (clock s) (S (clock s)));
      [|intros [= <- _]; simpl; eauto].
    intros H. apply retry_loop_fetched in H as (n & t & Hf).
    destruct Hf as (_ & _ & _ & Ht & _). simpl in Ht.
    rewrite <- app_assoc in Ht. eauto.
Qed.

Lemma with_open_w_grows (path data : string) (msg : message) (s s' : state)
    (r : result unit) :
  with_open_w w path (file_write path data ;;; log INFO msg) s = (s', r) ->
  exists t, trace s' = trace s ++ t.
Proof.
  destruct (wr_denied w path) eqn:D.
  - rewrite with_open_w_denied by assumption. intros [= <- _]. simpl. eauto.
  - rewrite write_file_eq by assumption. intros [= <- _]. simpl. eauto.
Qed.

(** With room for one call, the full sync begins by requesting the
    resource's URL. *)
Lemma full_sync_first_event (hdrs : gmap string string) (url file_name : string)
    (latest : Z) (s s' : state) (r : result unit) :
  (0 < recursion_limit w)%nat ->
  full_sync w hdrs url file_name latest s = (s', r) ->
  exists t, trace s' = trace s ++ EvGet url hdrs :: t.
Proof.
  intros Hd. unfold full_sync. unfold bind at 1.
  destruct (recursion_limit w) as [|d]; [lia|]. rewrite follow_and_extract_S.
  destruct (fetch_url w (Some url) hdrs s) as [s1 r1] eqn:F.
  destruct (fetch_url_first_event _ _ _ _ _ F) as (t1 & Ht1).
  assert (forall s2 (r2 : result string),
            quiet s1 s2 ->
            (let (s3, r3) := (s2, r2) in
             match r3 with
             | Ok a => (write_content w file_name a ;;; write_marker w file_name latest) s3
             | Raise e => (s3, Raise e)
             end) = (s', r) ->
            exists t, trace s' = trace s ++ EvGet url hdrs :: t) as K.
  { intros s2 r2 [_ (t2 & Ht2 & _)] H. destruct r2 as [a|e].
    - unfold bind in H.
      destruct (write_content w file_name a s2) as [s3 r3] eqn:Wc.
      apply with_open_w_grows in Wc as (t3 & Ht3).
      destruct r3 as [[]|e].
      + destruct (write_marker w file_name latest s3) as [s4 r4] eqn:Wm.
        apply with_open_w_grows in Wm as (t4 & Ht4).
        injection H as <- _. rewrite Ht4, Ht3, Ht2, Ht1.
        repeat rewrite <- app_assoc. simpl. eauto.
      + injection H as <- _. rewrite Ht3, Ht2, Ht1.
        repeat rewrite <- app_assoc. simpl. eauto.
    - injection H as <- _. rewrite Ht2, Ht1.
      repeat rewrite <- app_assoc. simpl. eauto. }
  destruct r1 as [request|e]; [|apply (K s1 (Raise e) (quiet_refl s1))].
  destruct (links request !! "next") as [link|];
    [|apply (K s1 (Ok (text request)) (quiet_refl s1))].
  destruct (follow_and_extract w d (link !! "url") hdrs s1) as [s2 r2] eqn:G.
  apply follow_and_extract_quiet in G.
  destruct r2 as [rest|e]; [apply (K s2 (Ok _) G)|].
  destruct e; first [apply (K s2 (Ok _) G) | apply (K s2 (Raise _) G)].
Qed.

End FullFetch.

(** C5.  When the marker file is missing, or the line read from it does not
    parse as an integer, the Version Cache read yields 0.  If then the probe
    succeeds with a version other than 0, the sync continues with the full
    fetch: it is the run of lines 57-69 from the state in which the
    difference has been logged, and, the interpreter allowing at least one
    call, its next effect is a GET request for the resource's URL. *)
Theorem unreadable_marker_forces_full_fetch (w : world)
    (hdrs : gmap string string) (url file_name : string) (s : state) :
  (fs s !! marker_path file_name = None \/
   exists content,
     fs s !! marker_path file_name = Some content /\
     Py.int (Py.readline content) = None) ->
  read_cached_version file_name s =
    (after s [EvOpen (marker_path file_name) R], Ok 0%Z) /\
  forall s1 r h latest,
    fetch_url w (Some url) hdrs s = (s1, Ok r) ->
    headers r !! "last-modified-version" = Some h ->
    Py.int h = Some latest ->
    latest <> 0%Z ->
    let start :=
      after s1 [EvOpen (marker_path file_name) R; EvLog INFO (MsgDifferent latest 0)] in
    download_and_write_bib w hdrs url file_name s =
      full_sync w hdrs url file_name latest start /\
    ((0 < recursion_limit w)%nat ->
     exists t,
       trace (fst (download_and_write_bib w hdrs url file_name s)) =
       trace start ++ EvGet url hdrs :: t).
Proof.
  intros Hm.
  assert (cached_version_of (fs s) file_name = 0%Z /\ cache_log (fs s) file_name = [])
    as [Hc Hl].
  { unfold cached_version_of, cache_log.
    destruct Hm as [-> | (content & -> & ->)]; auto. }
  split.
  - rewrite read_cached_version_eq, Hc, Hl. reflexivity.
  - intros s1 r h latest F Hh Hi Hz start.
    assert (download_and_write_bib w hdrs url file_name s =
            full_sync w hdrs url file_name latest start) as E.
    { rewrite (download_after_probe w _ _ _ _ _ _ F), Hh, Hi, Hc, Hl. cbn zeta.
      replace (0 =? latest)%Z with false by lia.
      unfold start, after. simpl. rewrite <- app_assoc. reflexivity. }
    split; [exact E|]. intros Hd. rewrite E.
    destruct (full_sync w hdrs url file_name latest start) as [s' r'] eqn:S.
    apply (full_sync_first_event w _ _ _ _ _ _ _ Hd S).
Qed.

Lemma unreadable_marker_forces_full_fetch_witness :
  let w := Sample.world_of Sample.three_pages in
  let s := Sample.corrupt_marker in
  let s1 := {| fs := fs s; clock := 1;
               trace := [EvGet "u1" ∅; EvLog INFO (MsgReturned "u1" 200)] |} in
  let start :=
    after s1 [EvOpen (marker_path "zotero.bib") R; EvLog INFO (MsgDifferent 9 0)] in
  read_cached_version "zotero.bib" s =
    (after s [EvOpen (marker_path "zotero.bib") R], Ok 0%Z) /\
  download_and_write_bib w ∅ "u1" "zotero.bib" s =
    full_sync w ∅ "u1" "zotero.bib" 9 start /\
  exists t,
    trace (fst (download_and_write_bib w ∅ "u1" "zotero.bib" s)) =
    trace start ++ EvGet "u1" ∅ :: t.
Proof.
  intros w s s1 start.
  destruct (unreadable_marker_forces_full_fetch w ∅ "u1" "zotero.bib" s) as [H1 H2].
  - right. exists "seven". split; reflexivity.
  - split; [exact H1|].
    destruct (H2 s1 (Sample.page (Some "9") "A" (Some "u2")) "9" 9%Z) as [H3 H4].
    + vm_compute. reflexivity.
    + reflexivity.
    + reflexivity.
    + lia.
    + split; [exact H3|]. apply H4. vm_compute. lia.
Defined.

(** C3.  Let the probe succeed with a version that differs from the cached
    one, let fetching the resource's URL and following the ["next"] links
    yield the pages [pages], in link order, within the interpreter's
    recursion limit, and let both files be writable.  Then the sync returns
    normally; the content file holds the bodies of the pages concatenated in
    that order with nothing in between, and the marker file holds the
    decimal text of the version read from the probe. *)
Theorem full_sync_persists_pages (w : world) (hdrs : gmap string string)
    (url file_name : string) (s s1 s2 : state) (r : response) (h : string)
    (latest : Z) (pages : list response) :
  fetch_url w (Some url) hdrs s = (s1, Ok r) ->
  headers r !! "last-modified-version" = Some h ->
  Py.int h = Some latest ->
  cached_version_of (fs s) file_name <> latest ->
  chain w hdrs url s1 pages s2 ->
  (length pages <= recursion_limit w)%nat ->
  wr_denied w (content_path file_name) = false ->
  wr_denied w (marker_path file_name) = false ->
  exists s',
    download_and_write_bib w hdrs url file_name s = (s', Ok tt) /\
    fs s' !! content_path file_name = Some (bodies pages) /\
    fs s' !! marker_path file_name = Some (Py.str latest).
Proof.
  intros F Hh Hi Hne C Hd Wc Wm.
  rewrite (download_after_probe w _ _ _ _ _ _ F), Hh, Hi. cbn zeta.
  replace (cached_version_of (fs s) file_name =? latest)%Z with false by lia.
  set (start := after _ [EvLog INFO _]).
  destruct (chain_clock w _ _ _ _ _ C start eq_refl) as (s3 & C3 & _).
  pose proof (follow_and_extract_chain w _ _ _ _ _ C3 _ Hd) as G.
  pose proof (follow_and_extract_quiet w _ _ _ _ _ _ G) as [Hfs3 _].
  destruct (fetch_url_quiet w _ _ _ _ _ F) as [Hfs1 _].
  unfold full_sync, bind. rewrite G, write_content_eq by assumption.
  rewrite write_marker_eq by assumption.
  eexists; split; [reflexivity|]. simpl. rewrite Hfs3. simpl. rewrite Hfs1.
  pose proof (content_marker_distinct file_name) as Hcm.
  split.
  - rewrite lookup_insert_ne by congruence. apply lookup_insert_eq.
  - apply lookup_insert_eq.
Qed.

Lemma sample_chain :
  exists s2,
    chain (Sample.world_of Sample.three_pages) ∅ "u1"
      (Sample.probed Sample.at_version_7) Sample.abc_pages s2.
Proof.
  eexists.
  eapply chain_next; [vm_compute; reflexivity | reflexivity | reflexivity |].
  eapply chain_next; [vm_compute; reflexivity | reflexivity | reflexivity |].
  eapply chain_last; [vm_compute; reflexivity | reflexivity].
Defined.

Lemma full_sync_persists_pages_witness :
  exists s',
    download_and_write_bib (Sample.world_of Sample.three_pages) ∅ "u1" "zotero.bib"
      Sample.at_version_7 = (s', Ok tt) /\
    fs s' !! content_path "zotero.bib" = Some "ABC" /\
    fs s' !! marker_path "zotero.bib" = Some "9".
Proof.
  destruct sample_chain as (s2 & C).
  change "ABC" with (bodies Sample.abc_pages).
  change "9" with (Py.str 9).
  apply (full_sync_persists_pages (Sample.world_of Sample.three_pages) ∅ "u1"
           "zotero.bib" Sample.at_version_7 (Sample.probed Sample.at_version_7) s2
           (Sample.page (Some "9") "A" (Some "u2")) "9" 9%Z Sample.abc_pages).
  - vm_compute. reflexivity.
  - reflexivity.
  - reflexivity.
  - vm_compute. discriminate.
  - exact C.
  - vm_compute. lia.
  - reflexivity.
  - reflexivity.
Defined.

(** ** Two runs in succession *)

Section Stationary.

Context (w : world) (Hstat : stationary w).

Lemma attempt_outcome_stationary (n : nat) (url : string) (hdrs : gmap string string) :
  attempt_outcome w n url hdrs = attempt_outcome w 0 url hdrs.
Proof. unfold attempt_outcome. rewrite Hstat. reflexivity. Qed.

Lemma fetch_url_stationary_ok (url : string) (hdrs : gmap string string)
    (s s1 : state) (r : response) :
  fetch_url w (Some url) hdrs s = (s1, Ok r) ->
  attempt_outcome w 0 url hdrs = Ok r.
Proof.
  intros H. apply fetch_url_fetched in H as (n & t & Hf).
  destruct Hf as (_ & _ & _ & _ & _ & _ & _ & Hr & _).
  rewrite attempt_outcome_stationary in Hr. auto.
Qed.

Lemma fetch_url_stationary_run (url : string) (hdrs : gmap string string)
    (r : response) (s : state) :
  attempt_outcome w 0 url hdrs = Ok r ->
  fetch_url w (Some url) hdrs s =
  ({| fs := fs s; clock := S (clock s);
      trace := trace s ++ [EvGet url hdrs; EvLog INFO (MsgReturned url (status_code r))] |},
   Ok r).
Proof.
  intros H. unfold fetch_url, stamina_retry. change (3 - 1)%nat with 2%nat.
  rewrite retry_loop_S, fetch_url_body_eq, attempt_outcome_stationary, H.
  rewrite <- app_assoc. reflexivity.
Qed.

End Stationary.

Lemma full_sync_ok_marker (w : world) (hdrs : gmap string string)
    (url file_name : string) (latest : Z) (s s1 : state) :
  full_sync w hdrs url file_name latest s = (s1, Ok tt) ->
  fs s1 !! marker_path file_name = Some (Py.str latest).
Proof.
  unfold full_sync, bind.
  destruct (follow_and_extract w (recursion_limit w) (Some url) hdrs s)
    as [s2 [content|e]]; [|discriminate].
  destruct (wr_denied w (content_path file_name)) eqn:Dc;
    [unfold write_content; rewrite with_open_w_denied by assumption; discriminate|].
  rewrite write_content_eq by assumption.
  destruct (wr_denied w (marker_path file_name)) eqn:Dm;
    [unfold write_marker; rewrite with_open_w_denied by assumption; discriminate|].
  rewrite write_marker_eq by assumption.
  intros [= <-]. simpl. apply lookup_insert_eq.
Qed.


Lemma three_pages_stationary : stationary (Sample.world_of Sample.three_pages).
Proof. intros n url hdrs. reflexivity. Defined.


(** ** The order of the two writes *)

Section Shape.

Context (w : world).

Lemma after_quiet (s : state) (t : list event) :
  Forall (fun ev => no_write ev = true) t -> quiet s (after s t).
Proof. intros H. split; [reflexivity|]. exists t. auto. Qed.

Lemma cache_log_no_write (files : gmap string string) (file_name : string) :
  Forall (fun ev => no_write ev = true) (cache_log files file_name).
Proof.
  unfold cache_log. destruct (files !! marker_path file_name) as [c|]; [|constructor].
  destruct (Py.int (Py.readline c)); repeat constructor.
Qed.

Lemma full_sync_shape (hdrs : gmap string string) (url file_name : string)
    (latest : Z) (s s' : state) (r : result unit) :
  full_sync w hdrs url file_name latest s = (s', r) ->
  exists sq, quiet s sq /\ sync_end w file_name sq s' r.
Proof.
  unfold full_sync, bind.
  destruct (follow_and_extract w (recursion_limit w) (Some url) hdrs s)
    as [sq [body|e]] eqn:G; apply follow_and_extract_quiet in G; intros H;
    (exists sq; split; [exact G|]); unfold sync_end; cbn zeta;
    [|left; congruence].
  destruct (wr_denied w (content_path file_name)) eqn:Dc.
  - unfold write_content in H. rewrite with_open_w_denied in H by assumption.
    injection H as <- <-. right; left. auto.
  - rewrite write_content_eq in H by assumption.
    destruct (wr_denied w (marker_path file_name)) eqn:Dm.
    + unfold write_marker in H. rewrite with_open_w_denied in H by assumption.
      injection H as <- <-. right; right; left. exists body.
      repeat split. simpl. rewrite <- app_assoc. reflexivity.
    + rewrite write_marker_eq in H by assumption.
      injection H as <- <-. right; right; right. exists body, latest.
      repeat split. simpl. rewrite <- app_assoc. reflexivity.
Qed.

Lemma download_shape (hdrs : gmap string string) (url file_name : string)
    (s s' : state) (r : result unit) :
  download_and_write_bib w hdrs url file_name s = (s', r) ->
  exists sq, quiet s sq /\ sync_end w file_name sq s' r.
Proof.
  intros H.
  destruct (fetch_url w (Some url) hdrs s) as [sp [resp|e]] eqn:F.
  - pose proof (fetch_url_quiet w _ _ _ _ _ F) as Q.
    rewrite (download_after_probe w _ _ _ _ _ _ F) in H. cbn zeta in H.
    set (sr := after sp _) in H.
    assert (quiet s sr) as Qr.
    { eapply quiet_trans; [exact Q|]. apply after_quiet.
      constructor; [reflexivity | apply cache_log_no_write]. }
    destruct (headers resp !! "last-modified-version") as [h|];
      [|injection H as <- <-; exists sr; split; [exact Qr | left; reflexivity]].
    destruct (Py.int h) as [latest|];
      [|injection H as <- <-; exists sr; split; [exact Qr | left; reflexivity]].
    destruct (cached_version_of (fs s) file_name =? latest)%Z.
    + injection H as <- <-. eexists; split; [|left; reflexivity].
      eapply quiet_trans; [exact Qr|]. apply after_quiet. repeat constructor.
    + apply full_sync_shape in H as (sq & Qq & E). exists sq. split; [|exact E].
      eapply quiet_trans; [|exact Qq].
      eapply quiet_trans; [exact Qr|]. apply after_quiet. repeat constructor.
  - rewrite (download_probe_raises w _ _ _ _ _ _ F) in H. injection H as <- <-.
    exists sp. split; [|left; reflexivity]. eapply fetch_url_quiet; eauto.
Qed.

Lemma replay_app (files : gmap string string) (t1 t2 : list event) :
  replay w files (t1 ++ t2) = replay w (replay w files t1) t2.
Proof. apply fold_left_app. Qed.

Lemma replay_untouched (path : string) (t : list event) :
  forall files,
    Forall (fun ev => touches path ev = false) t ->
    replay w files t !! path = files !! path.
Proof.
  induction t as [|ev t IH]; intros files H; [reflexivity|].
  inversion H as [|? ? Hev Ht]; subst. simpl. fold (replay w (apply_event w files ev) t).
  rewrite IH by assumption.
  destruct ev as [| |p [] |p d|]; simpl in *; try reflexivity.
  - destruct (wr_denied w p); [reflexivity|].
    apply lookup_insert_ne. intros ->. rewrite String.eqb_refl in Hev. discriminate.
  - apply lookup_insert_ne. intros ->. rewrite String.eqb_refl in Hev. discriminate.
Qed.

Lemma replay_no_write (t : list event) :
  forall files, Forall (fun ev => no_write ev = true) t -> replay w files t = files.
Proof.
  induction t as [|ev t IH]; intros files H; [reflexivity|].
  inversion H as [|? ? Hev Ht]; subst. simpl. fold (replay w (apply_event w files ev) t).
  rewrite IH by assumption.
  destruct ev as [| |p [] |p d|]; simpl in *; congruence.
Qed.

Lemma replay_write_events (files : gmap string string) (path data : string)
    (msg : message) :
  wr_denied w path = false ->
  replay w files (write_events path data msg) = <[path := data]> files.
Proof.
  intros D. unfold write_events, replay. simpl. rewrite D, lookup_insert_eq. simpl.
  apply insert_insert_eq.
Qed.

Lemma no_write_untouched (path : string) (t : list event) :
  Forall (fun ev => no_write ev = true) t ->
  Forall (fun ev => touches path ev = false) t.
Proof.
  intros H. eapply Forall_impl; [exact H|].
  intros [| |p [] |p d|]; simpl; congruence.
Qed.

(** An element that occurs once in a list splits it in one way only. *)
Lemma split_unique {A} (x : A) (l1 l2 k1 k2 : list A) :
  x ∉ l1 -> x ∉ l2 -> l1 ++ x :: l2 = k1 ++ x :: k2 -> k1 = l1 /\ k2 = l2.
Proof.
  revert k1. induction l1 as [|a l1 IH]; intros k1 H1 H2 E.
  - destruct k1 as [|b k1]; simpl in E.
    + injection E as E. auto.
    + injection E as Eb E. exfalso. apply H2. rewrite E.
      apply elem_of_app. right. apply elem_of_cons. left. reflexivity.
  - destruct k1 as [|b k1]; simpl in E.
    + injection E as Ea _. exfalso. apply H1. rewrite Ea.
      apply elem_of_cons. left. reflexivity.
    + injection E as Ea E. apply not_elem_of_cons in H1 as [_ H1].
      destruct (IH k1 H1 H2 E) as [E1 E2]. split; congruence.
Qed.

End Shape.

Section Order.

Context (w : world) (file_name : string).

Lemma open_marker_touches :
  touches (marker_path file_name) (EvOpen (marker_path file_name) W) = true.
Proof. unfold touches. apply String.eqb_refl. Qed.

Lemma untouched_not_in (l : list event) :
  Forall (fun ev => touches (marker_path file_name) ev = false) l ->
  EvOpen (marker_path file_name) W ∉ l.
Proof.
  intros H Hin. rewrite Forall_forall in H. specialize (H _ Hin).
  rewrite open_marker_touches in H. discriminate.
Qed.

Lemma content_marker_eqb :
  String.eqb (content_path file_name) (marker_path file_name) = false.
Proof. apply String.eqb_neq. exact (content_marker_distinct file_name). Qed.

Lemma content_events_untouched (body : string) (msg : message) :
  Forall (fun ev => touches (marker_path file_name) ev = false)
    (write_events (content_path file_name) body msg).
Proof.
  unfold write_events.
  repeat constructor; first [exact content_marker_eqb | reflexivity].
Qed.

Lemma open_content_untouched :
  Forall (fun ev => touches (marker_path file_name) ev = false)
    [EvOpen (content_path file_name) W].
Proof. repeat constructor. exact content_marker_eqb. Qed.

(** A prefix that stops before the marker file is opened for writing holds
    no event that changes the marker file. *)
Lemma prefix_untouched (A B before rest : list event) :
  Forall (fun ev => touches (marker_path file_name) ev = false) A ->
  (B = [] \/ exists B', B = EvOpen (marker_path file_name) W :: B') ->
  A ++ B = before ++ rest ->
  EvOpen (marker_path file_name) W ∉ before ->
  Forall (fun ev => touches (marker_path file_name) ev = false) before.
Proof.
  intros HA HB E Hnot. symmetry in E.
  apply app_eq_app in E as (l & [[-> ->] | [-> ->]]).
  - destruct HB as [HB | (B' & HB)].
    + apply app_eq_nil in HB as [-> _]. rewrite app_nil_r. exact HA.
    + destruct l as [|x l]; [rewrite app_nil_r; exact HA|].
      injection HB as -> _. exfalso. apply Hnot.
      apply elem_of_app. right. apply elem_of_cons. left. reflexivity.
  - apply Forall_app in HA as [HA _]. exact HA.
Qed.

End Order.

(** C2.  Take any run of a sync and the events [t] it added to the trace.
    The persisted files at its end are those obtained by replaying [t] on the
    files of the start.  At every point of the run that precedes the opening
    of the marker file for writing, the marker file is as it was at the start,
    so that a run cut short there, between the two writes included, leaves
    the stale marker.  And whenever the marker file is opened for writing,
    the events just before it are the complete write of the content file
    (opened, written with the body, logged, closed), which succeeded, and the
    content file holds that body at that point. *)
Theorem content_written_before_marker (w : world) (hdrs : gmap string string)
    (url file_name : string) (s s' : state) (r : result unit) :
  download_and_write_bib w hdrs url file_name s = (s', r) ->
  exists t,
    trace s' = trace s ++ t /\
    fs s' = replay w (fs s) t /\
    (forall before rest,
       t = before ++ rest ->
       EvOpen (marker_path file_name) W ∉ before ->
       replay w (fs s) before !! marker_path file_name
       = fs s !! marker_path file_name) /\
    (forall before rest,
       t = before ++ EvOpen (marker_path file_name) W :: rest ->
       exists earlier body,
         before = earlier ++ write_events (content_path file_name) body
                               (MsgFileUpdated file_name) /\
         wr_denied w (content_path file_name) = false /\
         replay w (fs s) before !! content_path file_name = Some body).
Proof.
  intros H. apply download_shape in H as (sq & [Hfs (tq & Htq & Hq)] & E).
  pose proof (no_write_untouched (marker_path file_name) tq Hq) as Hu.
  unfold sync_end in E. cbn zeta in E.
  destruct E as [-> | [(Dc & -> & ->) | [(body & Dc & Dm & -> & ->)
                                        | (body & latest & Dc & Dm & -> & ->)]]].
  - exists tq. split; [exact Htq|]. split; [|split].
    + rewrite (replay_no_write w tq) by assumption. exact Hfs.
    + intros before rest Eq Hnot. apply replay_untouched.
      apply (prefix_untouched file_name tq [] before rest); auto.
      rewrite app_nil_r. exact Eq.
    + intros before rest Eq. exfalso.
      apply (untouched_not_in file_name tq Hu). rewrite Eq.
      apply elem_of_app. right. apply elem_of_cons. left. reflexivity.
  - assert (Forall (fun ev => touches (marker_path file_name) ev = false)
              (tq ++ [EvOpen (content_path file_name) W])) as Hu'.
    { apply Forall_app. split; [exact Hu | apply open_content_untouched]. }
    exists (tq ++ [EvOpen (content_path file_name) W]). split; [|split; [|split]].
    + simpl. rewrite Htq, <- app_assoc. reflexivity.
    + simpl. rewrite replay_app, (replay_no_write w tq) by assumption.
      unfold replay. simpl. rewrite Dc. exact Hfs.
    + intros before rest Eq Hnot. apply replay_untouched.
      apply (prefix_untouched file_name
               (tq ++ [EvOpen (content_path file_name) W]) [] before rest); auto.
      rewrite app_nil_r. exact Eq.
    + intros before rest Eq. exfalso.
      apply (untouched_not_in file_name _ Hu'). rewrite Eq.
      apply elem_of_app. right. apply elem_of_cons. left. reflexivity.
  - set (wc := write_events (content_path file_name) body (MsgFileUpdated file_name)).
    assert (Forall (fun ev => touches (marker_path file_name) ev = false) (tq ++ wc))
      as Hu'.
    { apply Forall_app. split; [exact Hu | apply content_events_untouched]. }
    exists ((tq ++ wc) ++ [EvOpen (marker_path file_name) W]).
    split; [|split; [|split]].
    + simpl. rewrite Htq. repeat rewrite <- app_assoc. reflexivity.
    + simpl. rewrite !replay_app, (replay_no_write w tq) by assumption.
      unfold wc. rewrite replay_write_events by assumption.
      unfold replay. simpl. rewrite Dm, Hfs. reflexivity.
    + intros before rest Eq Hnot. apply replay_untouched.
      apply (prefix_untouched file_name (tq ++ wc)
               [EvOpen (marker_path file_name) W] before rest);
        [exact Hu' | right; eexists; reflexivity | exact Eq | exact Hnot].
    + intros before rest Eq.
      apply split_unique in Eq as [-> _];
        [|apply untouched_not_in; exact Hu' | apply not_elem_of_nil].
      exists tq, body. split; [reflexivity|]. split; [exact Dc|].
      rewrite replay_app, (replay_no_write w tq) by assumption.
      unfold wc. rewrite replay_write_events by assumption.
      apply lookup_insert_eq.
  - set (wc := write_events (content_path file_name) body (MsgFileUpdated file_name)).
    assert (Forall (fun ev => touches (marker_path file_name) ev = false) (tq ++ wc))
      as Hu'.
    { apply Forall_app. split; [exact Hu | apply content_events_untouched]. }
    exists ((tq ++ wc) ++ write_events (marker_path file_name) (Py.str latest)
                             (MsgMarkerUpdated latest)).
    split; [|split; [|split]].
    + simpl. rewrite Htq. repeat rewrite <- app_assoc. reflexivity.
    + simpl. rewrite !replay_app, (replay_no_write w tq) by assumption.
      unfold wc. rewrite !replay_write_events by assumption.
      rewrite Hfs. reflexivity.
    + intros before rest Eq Hnot. apply replay_untouched.
      apply (prefix_untouched file_name (tq ++ wc)
               (write_events (marker_path file_name) (Py.str latest)
                  (MsgMarkerUpdated latest)) before rest);
        [exact Hu' | right; eexists; reflexivity | exact Eq | exact Hnot].
    + intros before rest Eq. unfold write_events in Eq.
      apply split_unique in Eq as [-> _]; [|apply untouched_not_in; exact Hu' |].
      * exists tq, body. split; [reflexivity|]. split; [exact Dc|].
        rewrite replay_app, (replay_no_write w tq) by assumption.
        unfold wc. rewrite replay_write_events by assumption.
        apply lookup_insert_eq.
      * intros Hin. repeat (apply elem_of_cons in Hin as [Hin | Hin]; [discriminate|]).
        apply elem_of_nil in Hin. exact Hin.
Qed.

Lemma content_written_before_marker_witness :
  let w := Sample.world_of Sample.three_pages in
  let s := Sample.at_version_7 in
  let out := download_and_write_bib w ∅ "u1" "zotero.bib" s in
  exists t,
    trace (fst out) = trace s ++ t /\
    fs (fst out) = replay w (fs s) t /\
    (forall before rest,
       t = before ++ rest ->
       EvOpen (marker_path "zotero.bib") W ∉ before ->
       replay w (fs s) before !! marker_path "zotero.bib"
       = fs s !! marker_path "zotero.bib") /\
    (forall before rest,
       t = before ++ EvOpen (marker_path "zotero.bib") W :: rest ->
       exists earlier body,
         before = earlier ++ write_events (content_path "zotero.bib") body
                               (MsgFileUpdated "zotero.bib") /\
         wr_denied w (content_path "zotero.bib") = false /\
         replay w (fs s) before !! content_path "zotero.bib" = Some body).
Proof.
  intros w s out.
  apply (content_written_before_marker w ∅ "u1" "zotero.bib" s (fst out) (snd out)).
  vm_compute. reflexivity.
Defined.

(** A run whose marker file cannot be opened: the content is written, the
    marker keeps version 7. *)
Example stale_marker_after_failed_marker_write :
  let out :=
    download_and_write_bib Sample.marker_locked ∅ "u1" "zotero.bib" Sample.at_version_7 in
  snd out = Raise PermissionError /\
  fs (fst out) !! content_path "zotero.bib" = Some "ABC" /\
  fs (fst out) !! marker_path "zotero.bib" = Some "7".
Proof. vm_compute. repeat split. Qed.

(** ** The entry point *)

(** C8.  When [ZOTERO_USER_ID] or [ZOTERO_BEARER_TOKEN] is unset, the run
    logs one error line and returns: the files and the request counter are
    untouched, and the trace gains that line only, so no GET request is issued
    and nothing is written. *)
Theorem main_without_credentials (w : world) (s : state) :
  env w !! "ZOTERO_USER_ID" = None \/ env w !! "ZOTERO_BEARER_TOKEN" = None ->
  exists msg,
    main w s = (after s [EvLog ERROR msg], Ok tt) /\
    (msg = MsgUserIdUnset \/ msg = MsgTokenUnset).
Proof.
  intros H. unfold main.
  destruct (env w !! "ZOTERO_USER_ID") as [uid|].
  - destruct H as [H | ->]; [discriminate|].
    exists MsgTokenUnset. split; [reflexivity | right; reflexivity].
  - exists MsgUserIdUnset. split; [reflexivity | left; reflexivity].
Qed.

Lemma main_without_credentials_witness :
  exists msg,
    main Sample.no_token Sample.at_version_7
    = (after Sample.at_version_7 [EvLog ERROR msg], Ok tt) /\
    (msg = MsgUserIdUnset \/ msg = MsgTokenUnset).
Proof.
  apply (main_without_credentials Sample.no_token Sample.at_version_7).
  right. reflexivity.
Defined.

(** ** A probe answered by 403 *)

(** When the remote answers the three attempts of the probe with status 403,
    the time limit leaving room for them, the sync raises the status error
    of the third: the files are untouched, the trace gains the three requests
    and no log line. *)
Lemma probe_403_raises (w : world) (hdrs : gmap string string)
    (url file_name : string) (s : state) :
  (forall i, (i < 3)%nat ->
     exists r, server w (clock s + i) url hdrs = Ok r /\ status_code r = 403%Z) ->
  in_time w stamina_timeout (clock s) (S (clock s)) = true ->
  in_time w stamina_timeout (clock s) (S (S (clock s))) = true ->
  download_and_write_bib w hdrs url file_name s =
  ({| fs := fs s; clock := (clock s + 3)%nat;
      trace := trace s ++ [EvGet url hdrs; EvGet url hdrs; EvGet url hdrs] |},
   Raise (HTTPStatusError 403)).
Proof.
  intros H T1 T2.
  assert (forall i, (i < 3)%nat ->
            attempt_outcome w (clock s + i) url hdrs = Raise (HTTPStatusError 403))
    as K.
  { intros i Hi. destruct (H i Hi) as (r & Hr & Hc).
    unfold attempt_outcome, is_success. rewrite Hr, Hc. reflexivity. }
  apply download_probe_raises.
  unfold fetch_url, stamina_retry. change (3 - 1)%nat with 2%nat.
  pose proof (K 0%nat ltac:(lia)) as K0. rewrite Nat.add_0_r in K0.
  pose proof (K 1%nat ltac:(lia)) as K1. rewrite Nat.add_1_r in K1.
  pose proof (K 2%nat ltac:(lia)) as K2.
  replace (clock s + 2)%nat with (S (S (clock s))) in K2 by lia.
  rewrite retry_loop_S, fetch_url_body_eq, K0. cbn [is_HTTPError clock].
  rewrite T1. cbn [andb].
  rewrite retry_loop_S, fetch_url_body_eq. cbn [clock]. rewrite K1.
  cbn [is_HTTPError clock]. rewrite T2. cbn [andb retry_loop].
  rewrite fetch_url_body_eq. cbn [clock].
  rewrite K2. cbn [fs clock trace]. repeat rewrite <- app_assoc.
  replace (clock s + 3)%nat with (S (S (S (clock s)))) by lia. reflexivity.
Qed.

(** No probe that returns has status 403: line 32 never sees one. *)
Lemma probe_never_returns_403 (w : world) (url : option string)
    (hdrs : gmap string string) (s s' : state) (r : response) :
  fetch_url w url hdrs s = (s', Ok r) -> status_code r <> 403%Z.
Proof.
  intros H. apply fetch_url_ok_success in H. unfold is_success in H. lia.
Qed.

(** A group whose probe is answered by 403 ends the run: group 2 is never
    requested. *)
Example forbidden_group_aborts_run :
  let out := main (Sample.world_of Sample.group_1_forbidden) Sample.at_version_9 in
  snd out = Raise (HTTPStatusError 403) /\
  get_urls (trace (fst out)) =
    ["https://api.zotero.org/users/42/items?v=3&format=biblatex";
     "https://api.zotero.org/users/42/groups/";
     "https://api.zotero.org/groups/1/items?v=3&format=biblatex";
     "https://api.zotero.org/groups/1/items?v=3&format=biblatex";
     "https://api.zotero.org/groups/1/items?v=3&format=biblatex"] /\
  fs (fst out) = fs Sample.at_version_9.
Proof. vm_compute. repeat split. Qed.

(** C1 (evaluation).  With both credentials set and a remote that answers
    every request with status 403, the run ends with the status error raised
    by the third attempt of the first probe: no access-denied line is logged
    and the groups are never requested. *)
Theorem forbidden_probe_aborts_run :
  main (Sample.world_of Sample.forbidden) (Sample.disk ∅) =
  ({| fs := ∅; clock := 3;
      trace :=
        let get :=
          EvGet "https://api.zotero.org/users/42/items?v=3&format=biblatex"
            {[ "Authorization" := "Bearer secret" ]} in
        [get; get; get] |},
   Raise (HTTPStatusError 403)).
Proof. vm_compute. reflexivity. Qed.

(** * Further properties *)

(** ** The HTTP Fetcher: what it logs, what it retries, what it returns *)

Lemma retry_loop_trace (w : world) (again : nat -> bool) (url : string)
    (hdrs : gmap string string) (more : nat) :
  forall s s' r,
    retry_loop is_HTTPError again more (fetch_url_body w (Some url) hdrs) s
    = (s', r) ->
    exists n,
      (1 <= n <= S more)%nat /\
      clock s' = (clock s + n)%nat /\
      fs s' = fs s /\
      trace s' =
        trace s ++ replicate n (EvGet url hdrs)
          ++ match r with
             | Ok resp => [EvLog INFO (MsgReturned url (status_code resp))]
             | Raise _ => []
             end.
Proof.
  induction more as [|k IH]; intros s s' r.
  - simpl. rewrite fetch_url_body_eq.
    destruct (attempt_outcome w (clock s) url hdrs) as [a|e];
      intros [= <- <-]; exists 1%nat; simpl;
      repeat split; try lia; rewrite <- ?app_assoc; reflexivity.
  - rewrite retry_loop_S, fetch_url_body_eq.
    destruct (attempt_outcome w (clock s) url hdrs) as [a|e].
    + intros [= <- <-]. exists 1%nat. simpl.
      repeat split; try lia. rewrite <- app_assoc. reflexivity.
    + destruct (is_HTTPError e && again _).
      * intros H. apply IH in H as (n & Hn & Hc & Hf & Ht). simpl in *.
        exists (S n). repeat split; try lia; [assumption|].
        rewrite Ht, <- app_assoc. reflexivity.
      * intros [= <- <-]. exists 1%nat. simpl. repeat split; lia.
Qed.

(** X1.  The effects of [fetch_url] are its GET requests, between one and
    three, followed by one log line when it returns a response and by
    nothing when it raises: a failed attempt is not logged, and no file is
    touched. *)
Theorem fetch_url_effects (w : world) (url : string) (hdrs : gmap string string)
    (s s' : state) (r : result response) :
  fetch_url w (Some url) hdrs s = (s', r) ->
  exists n,
    (1 <= n <= 3)%nat /\
    clock s' = (clock s + n)%nat /\
    fs s' = fs s /\
    trace s' =
      trace s ++ replicate n (EvGet url hdrs)
        ++ match r with
           | Ok resp => [EvLog INFO (MsgReturned url (status_code resp))]
           | Raise _ => []
           end.
Proof. apply retry_loop_trace. Qed.

Lemma fetch_url_effects_witness :
  let s := Sample.disk ∅ in
  let out := fetch_url (Sample.world_of Sample.flaky) (Some "u1") ∅ s in
  exists n,
    (1 <= n <= 3)%nat /\
    clock (fst out) = (clock s + n)%nat /\
    fs (fst out) = fs s /\
    trace (fst out) =
      trace s ++ replicate n (EvGet "u1" ∅)
        ++ match snd out with
           | Ok resp => [EvLog INFO (MsgReturned "u1" (status_code resp))]
           | Raise _ => []
           end.
Proof.
  intros s out.
  apply (fetch_url_effects (Sample.world_of Sample.flaky) "u1" ∅ s (fst out) (snd out)).
  vm_compute. reflexivity.
Defined.

(** X2.  An exception of the client that is not an [HTTPError] is not
    retried: [fetch_url] raises it after a single GET request. *)
Theorem fetch_url_gives_up_on_other_errors (w : world) (url : string)
    (hdrs : gmap string string) (s : state) (e : exn) :
  server w (clock s) url hdrs = Raise e ->
  is_HTTPError e = false ->
  fetch_url w (Some url) hdrs s =
  ({| fs := fs s; clock := S (clock s); trace := trace s ++ [EvGet url hdrs] |},
   Raise e).
Proof.
  intros Hs He. unfold fetch_url, stamina_retry. change (3 - 1)%nat with 2%nat.
  rewrite retry_loop_S, fetch_url_body_eq. unfold attempt_outcome.
  rewrite Hs, He. reflexivity.
Qed.

Lemma fetch_url_gives_up_on_other_errors_witness :
  fetch_url (Sample.world_of Sample.invalid_url) (Some "u1") ∅ (Sample.disk ∅) =
  ({| fs := ∅; clock := 1; trace := [] ++ [EvGet "u1" ∅] |},
   Raise (OtherError "InvalidURL")).
Proof.
  apply (fetch_url_gives_up_on_other_errors (Sample.world_of Sample.invalid_url)
           "u1" ∅ (Sample.disk ∅) (OtherError "InvalidURL")); reflexivity.
Defined.

(** X3.  A response that [fetch_url] returns has a status between 200 and
    299, whatever URL it was asked for. *)
Theorem fetch_url_returns_success_only (w : world) (url : option string)
    (hdrs : gmap string string) (s s' : state) (r : response) :
  fetch_url w url hdrs s = (s', Ok r) ->
  (200 <= status_code r <= 299)%Z.
Proof.
  intros H. apply fetch_url_ok_success in H. unfold is_success in H. lia.
Qed.

Lemma fetch_url_returns_success_only_witness :
  (200 <= status_code (Sample.page (Some "9") "A" None) <= 299)%Z.
Proof.
  apply (fetch_url_returns_success_only (Sample.world_of Sample.flaky) (Some "u1") ∅
           (Sample.disk ∅)
           {| fs := ∅; clock := 3;
              trace := [EvGet "u1" ∅; EvGet "u1" ∅; EvGet "u1" ∅;
                        EvLog INFO (MsgReturned "u1" 200)] |}).
  vm_compute. reflexivity.
Defined.

(** ** The Paginator: failures, cut chains and the recursion limit *)

Section PaginatorFurther.

Context (w : world) (hdrs : gmap string string).

Lemma string_app_assoc (a b c : string) : (a +:+ b) +:+ c = a +:+ (b +:+ c).
Proof.
  induction a as [|x a IH]; [reflexivity|].
  exact (f_equal (String x) IH).
Qed.

(** What the pages fetched before make of the outcome of the rest of the
    recursion: a text is prefixed by their bodies, a [KeyError] is taken by
    the last of them for the end of the chain, any other exception passes. *)
Lemma follow_and_extract_partial (url url' : string) (s s1 : state)
    (pages : list response) :
  partial_chain w hdrs url s pages url' s1 ->
  forall k s2 out,
    follow_and_extract w k (Some url') hdrs s1 = (s2, out) ->
    follow_and_extract w (length pages + k) (Some url) hdrs s =
    (s2,
     match out with
     | Ok rest => Ok (bodies pages +:+ rest)
     | Raise KeyError =>
         match pages with
         | [] => Raise KeyError
         | _ => Ok (bodies pages)
         end
     | Raise e => Raise e
     end).
Proof.
  induction 1 as [url s | url s r s' link url1 pages url' s'' F L U C IH];
    intros k s2 out H.
  - simpl. rewrite H. destruct out as [rest|[]]; reflexivity.
  - cbn [length Nat.add]. rewrite follow_and_extract_S, F, L, U.
    rewrite (IH k s2 out H).
    destruct out as [rest|e].
    + simpl. rewrite string_app_assoc. reflexivity.
    + destruct e; try reflexivity.
      destruct pages; [simpl; rewrite string_app_nil_r|]; reflexivity.
Qed.

Lemma follow_and_extract_fetch_raises (k : nat) (url : string) (s s' : state)
    (e : exn) :
  fetch_url w (Some url) hdrs s = (s', Raise e) ->
  follow_and_extract w (S k) (Some url) hdrs s = (s', Raise e).
Proof. intros F. rewrite follow_and_extract_S, F. reflexivity. Qed.

End PaginatorFurther.

(** X4.  When the pages fetched so far all name a next URL and fetching the
    next one raises an exception other than [KeyError] (or there is no page
    yet), [follow_and_extract] raises that exception: the bodies fetched
    before are dropped, no partial text is returned. *)
Theorem pagination_failure_propagates (w : world) (hdrs : gmap string string)
    (url url' : string) (s s1 s2 : state) (pages : list response) (e : exn)
    (d : nat) :
  partial_chain w hdrs url s pages url' s1 ->
  fetch_url w (Some url') hdrs s1 = (s2, Raise e) ->
  e <> KeyError \/ pages = [] ->
  (length pages < d)%nat ->
  follow_and_extract w d (Some url) hdrs s = (s2, Raise e).
Proof.
  intros C F He Hd.
  replace d with (length pages + S (d - length pages - 1))%nat by lia.
  rewrite (follow_and_extract_partial w hdrs _ _ _ _ _ C _ s2 (Raise e)
             (follow_and_extract_fetch_raises w hdrs _ _ _ _ _ F)).
  destruct He as [He | ->]; destruct e; try reflexivity; congruence.
Qed.

(** X5.  A [KeyError] raised while a later page is fetched is caught by the
    [except KeyError] of the call that holds the page before: the text of
    the pages fetched so far is returned as if the chain had ended there. *)
Theorem pagination_key_error_truncates (w : world) (hdrs : gmap string string)
    (url url' : string) (s s1 s2 : state) (pages : list response) (d : nat) :
  partial_chain w hdrs url s pages url' s1 ->
  pages <> [] ->
  fetch_url w (Some url') hdrs s1 = (s2, Raise KeyError) ->
  (length pages < d)%nat ->
  follow_and_extract w d (Some url) hdrs s = (s2, Ok (bodies pages)).
Proof.
  intros C Hne F Hd.
  replace d with (length pages + S (d - length pages - 1))%nat by lia.
  rewrite (follow_and_extract_partial w hdrs _ _ _ _ _ C _ s2 (Raise KeyError)
             (follow_and_extract_fetch_raises w hdrs _ _ _ _ _ F)).
  destruct pages; [congruence | reflexivity].
Qed.

(** X6.  When the linked pages are at least as many as the interpreter
    allows nested calls, each of them naming a next URL,
    [follow_and_extract] raises [RecursionError]: it returns no text, and no
    file is changed.  The statement leaves open where in the last call that
    is allowed the interpreter raises the error. *)
Theorem pagination_beyond_recursion_limit (w : world) (hdrs : gmap string string)
    (url url' : string) (s s1 : state) (pages : list response) (d : nat) :
  partial_chain w hdrs url s pages url' s1 ->
  (d <= length pages)%nat ->
  exists s',
    follow_and_extract w d (Some url) hdrs s = (s', Raise RecursionError) /\
    fs s' = fs s.
Proof.
  intros C. revert d.
  induction C as [url s | url s r s1 link url1 pages url' s2 F L U C IH];
    intros d Hd.
  - assert (d = 0%nat) as -> by (simpl in Hd; lia). exists s. auto.
  - destruct d as [|d]; [exists s; auto|].
    destruct (IH d) as (s' & G & Hfs); [simpl in Hd; lia|].
    exists s'. rewrite follow_and_extract_S, F, L, U, G.
    split; [reflexivity|]. rewrite Hfs. apply (fetch_url_quiet w _ _ _ _ _ F).
Qed.

Lemma sample_partial_chain (e : exn) :
  partial_chain (Sample.world_of (Sample.second_page_raises e)) ∅ "u1"
    (Sample.disk ∅) [Sample.page (Some "9") "A" (Some "u2")] "u2"
    (Sample.probed (Sample.disk ∅)).
Proof.
  eapply partial_cons; [vm_compute; reflexivity | reflexivity | reflexivity |].
  apply partial_nil.
Defined.

Lemma pagination_failure_propagates_witness :
  exists s2,
    follow_and_extract (Sample.world_of (Sample.second_page_raises TransportError)) 5
      (Some "u1") ∅ (Sample.disk ∅) = (s2, Raise TransportError).
Proof.
  eexists.
  apply (pagination_failure_propagates _ ∅ "u1" "u2" (Sample.disk ∅) _ _
           [Sample.page (Some "9") "A" (Some "u2")] TransportError 5
           (sample_partial_chain TransportError)).
  - vm_compute. reflexivity.
  - left. discriminate.
  - simpl. lia.
Defined.

Lemma pagination_key_error_truncates_witness :
  exists s2,
    follow_and_extract (Sample.world_of (Sample.second_page_raises KeyError)) 5
      (Some "u1") ∅ (Sample.disk ∅) = (s2, Ok "A").
Proof.
  eexists.
  change "A" with (bodies [Sample.page (Some "9") "A" (Some "u2")]).
  apply (pagination_key_error_truncates _ ∅ "u1" "u2" (Sample.disk ∅) _ _
           [Sample.page (Some "9") "A" (Some "u2")] 5
           (sample_partial_chain KeyError)).
  - discriminate.
  - vm_compute. reflexivity.
  - simpl. lia.
Defined.

Lemma looping_partial_chain :
  exists s1,
    partial_chain (Sample.world_of Sample.looping) ∅ "u1" (Sample.disk ∅)
      [Sample.page (Some "9") "A" (Some "u1"); Sample.page (Some "9") "A" (Some "u1")]
      "u1" s1.
Proof.
  eexists.
  eapply partial_cons; [vm_compute; reflexivity | reflexivity | reflexivity |].
  eapply partial_cons; [vm_compute; reflexivity | reflexivity | reflexivity |].
  apply partial_nil.
Defined.

Lemma pagination_beyond_recursion_limit_witness :
  exists s',
    follow_and_extract (Sample.world_of Sample.looping) 2 (Some "u1") ∅ (Sample.disk ∅)
    = (s', Raise RecursionError) /\
    fs s' = fs (Sample.disk ∅).
Proof.
  destruct looping_partial_chain as (s1 & C).
  apply (pagination_beyond_recursion_limit _ _ _ _ _ _ _ 2 C).
  simpl. lia.
Defined.

(** ** The Sync Orchestrator: what a sync leaves behind *)

(** X7.  When the probe returns a response whose [last-modified-version]
    header is not the text of an integer, the sync raises [ValueError] after
    the cache read; no file is changed and none is opened for writing. *)
Theorem non_integer_version_header_aborts (w : world) (hdrs : gmap string string)
    (url file_name : string) (s s1 : state) (r : response) (h : string) :
  fetch_url w (Some url) hdrs s = (s1, Ok r) ->
  headers r !! "last-modified-version" = Some h ->
  Py.int h = None ->
  exists s',
    download_and_write_bib w hdrs url file_name s = (s', Raise ValueError) /\
    fs s' = fs s /\
    trace s' = trace s1 ++ EvOpen (marker_path file_name) R
                 :: cache_log (fs s) file_name.
Proof.
  intros H Hh Hi. rewrite (download_after_probe w _ _ _ _ _ _ H), Hh, Hi. cbn zeta.
  eexists; split; [reflexivity|]. split; [|reflexivity].
  apply (fetch_url_quiet w _ _ _ _ _ H).
Qed.

Lemma non_integer_version_header_aborts_witness :
  exists s',
    download_and_write_bib (Sample.world_of Sample.odd_version) ∅ "u1" "zotero.bib"
      Sample.at_version_7 = (s', Raise ValueError) /\
    fs s' = fs Sample.at_version_7 /\
    trace s' =
      trace (Sample.probed Sample.at_version_7)
        ++ EvOpen (marker_path "zotero.bib") R
        :: cache_log (fs Sample.at_version_7) "zotero.bib".
Proof.
  apply (non_integer_version_header_aborts (Sample.world_of Sample.odd_version) ∅
           "u1" "zotero.bib" Sample.at_version_7 (Sample.probed Sample.at_version_7)
           (Sample.page (Some "9.5") "A" None) "9.5").
  - vm_compute. reflexivity.
  - reflexivity.
  - reflexivity.
Defined.

Lemma sync_end_files (w : world) (file_name : string) (sq s' : state)
    (r : result unit) :
  sync_end w file_name sq s' r ->
  fs s' = fs sq \/
  (exists body,
     r = Raise (wr_error w (marker_path file_name)) /\
     wr_denied w (marker_path file_name) = true /\
     fs s' = <[content_path file_name := body]> (fs sq)) \/
  (exists body latest,
     r = Ok tt /\
     fs s' = <[marker_path file_name := Py.str latest]>
               (<[content_path file_name := body]> (fs sq))).
Proof.
  unfold sync_end. cbn zeta.
  intros [-> | [(_ & _ & ->) | [(body & _ & Dm & -> & ->)
                               | (body & latest & _ & _ & -> & ->)]]].
  - left; reflexivity.
  - left; reflexivity.
  - right; left. exists body. auto.
  - right; right. exists body, latest. auto.
Qed.

(** X9.  A sync whose probe raises, or whose pagination raises once the
    versions have been found to differ, raises that exception and has
    written nothing: every file is as it was, and no file has been opened
    for writing or written to. *)
Theorem failed_fetch_writes_nothing (w : world) (hdrs : gmap string string)
    (url file_name : string) (s s' : state) (e : exn) :
  fetch_url w (Some url) hdrs s = (s', Raise e) \/
  (exists s1 r h latest,
     fetch_url w (Some url) hdrs s = (s1, Ok r) /\
     headers r !! "last-modified-version" = Some h /\
     Py.int h = Some latest /\
     cached_version_of (fs s) file_name <> latest /\
     follow_and_extract w (recursion_limit w) (Some url) hdrs
       (after
          (after s1 (EvOpen (marker_path file_name) R :: cache_log (fs s) file_name))
          [EvLog INFO (MsgDifferent latest (cached_version_of (fs s) file_name))])
     = (s', Raise e)) ->
  download_and_write_bib w hdrs url file_name s = (s', Raise e) /\
  fs s' = fs s /\
  exists t,
    trace s' = trace s ++ t /\ Forall (fun ev => no_write ev = true) t.
Proof.
  intros [F | (s1 & r & h & latest & F & Hh & Hi & Hne & G)].
  - split; [apply download_probe_raises, F|]. apply (fetch_url_quiet w _ _ _ _ _ F).
  - assert (download_and_write_bib w hdrs url file_name s = (s', Raise e)) as D.
    { rewrite (download_after_probe w _ _ _ _ _ _ F), Hh, Hi. cbn zeta.
      replace (cached_version_of (fs s) file_name =? latest)%Z with false by lia.
      unfold full_sync, bind. rewrite G. reflexivity. }
    split; [exact D|].
    apply download_shape in D as (sq & Q & E).
    apply follow_and_extract_quiet in G.
    assert (quiet s s') as Qs.
    { eapply quiet_trans; [|exact G].
      eapply quiet_trans; [apply (fetch_url_quiet w _ _ _ _ _ F)|].
      eapply quiet_trans; [apply after_quiet|apply after_quiet; repeat constructor].
      constructor; [reflexivity | apply cache_log_no_write]. }
    exact Qs.
Qed.

Lemma failed_fetch_writes_nothing_witness :
  let w := Sample.world_of (Sample.second_page_raises TransportError) in
  let out := download_and_write_bib w ∅ "u1" "zotero.bib" Sample.at_version_7 in
  download_and_write_bib w ∅ "u1" "zotero.bib" Sample.at_version_7
  = (fst out, Raise TransportError) /\
  fs (fst out) = fs Sample.at_version_7 /\
  exists t,
    trace (fst out) = trace Sample.at_version_7 ++ t /\
    Forall (fun ev => no_write ev = true) t.
Proof.
  intros w out.
  apply (failed_fetch_writes_nothing w ∅ "u1" "zotero.bib" Sample.at_version_7
           (fst out) TransportError).
  right.
  exists (Sample.probed Sample.at_version_7),
         (Sample.page (Some "9") "A" (Some "u2")), "9", 9%Z.
  split; [vm_compute; reflexivity|].
  split; [reflexivity|]. split; [reflexivity|].
  split; [vm_compute; discriminate|].
  vm_compute. reflexivity.
Defined.

Lemma full_sync_ok_files (w : world) (hdrs : gmap string string)
    (url file_name : string) (latest : Z) (s s1 : state) :
  full_sync w hdrs url file_name latest s = (s1, Ok tt) ->
  exists body,
    fs s1 = <[marker_path file_name := Py.str latest]>
              (<[content_path file_name := body]> (fs s)).
Proof.
  unfold full_sync, bind.
  destruct (follow_and_extract w (recursion_limit w) (Some url) hdrs s)
    as [s2 [content|e]] eqn:G; [|discriminate].
  apply follow_and_extract_quiet in G as [Hfs _].
  destruct (wr_denied w (content_path file_name)) eqn:Dc;
    [unfold write_content; rewrite with_open_w_denied by assumption; discriminate|].
  rewrite write_content_eq by assumption.
  destruct (wr_denied w (marker_path file_name)) eqn:Dm;
    [unfold write_marker; rewrite with_open_w_denied by assumption; discriminate|].
  rewrite write_marker_eq by assumption.
  intros [= <-]. simpl. rewrite Hfs. eauto.
Qed.

(** X10.  A sync that returns normally had a probe that returned a response
    with an integer [last-modified-version] header, and it leaves the files
    such that the Version Cache reads exactly that version.  Either it
    changed no file, or it replaced the content file and wrote the decimal
    text of that version to the marker file. *)
Theorem successful_sync_caches_probe_version (w : world)
    (hdrs : gmap string string) (url file_name : string) (s s' : state) :
  download_and_write_bib w hdrs url file_name s = (s', Ok tt) ->
  exists s1 r h latest,
    fetch_url w (Some url) hdrs s = (s1, Ok r) /\
    headers r !! "last-modified-version" = Some h /\
    Py.int h = Some latest /\
    cached_version_of (fs s') file_name = latest /\
    (fs s' = fs s \/
     exists body,
       fs s' = <[marker_path file_name := Py.str latest]>
                 (<[content_path file_name := body]> (fs s))).
Proof.
  intros H.
  destruct (fetch_url w (Some url) hdrs s) as [s1 [r|e]] eqn:F;
    [|rewrite (download_probe_raises w _ _ _ _ _ _ F) in H; discriminate].
  rewrite (download_after_probe w _ _ _ _ _ _ F) in H. cbn zeta in H.
  destruct (headers r !! "last-modified-version") as [h|] eqn:Hh; [|discriminate].
  destruct (Py.int h) as [latest|] eqn:Hi; [|discriminate].
  exists s1, r, h, latest.
  do 3 (split; [first [assumption | reflexivity]|]). split.
  - destruct (cached_version_of (fs s) file_name =? latest)%Z eqn:E.
    + injection H as <-. simpl.
      destruct (fetch_url_quiet w _ _ _ _ _ F) as [-> _]. lia.
    + apply full_sync_ok_files in H as (body & ->).
      apply cached_version_of_str, lookup_insert_eq.
  - destruct (cached_version_of (fs s) file_name =? latest)%Z eqn:E.
    + injection H as <-. simpl. left. apply (fetch_url_quiet w _ _ _ _ _ F).
    + apply full_sync_ok_files in H as (body & ->). right. exists body.
      rewrite <- (proj1 (fetch_url_quiet w _ _ _ _ _ F)). reflexivity.
Qed.

Lemma successful_sync_caches_probe_version_witness :
  let w := Sample.world_of Sample.three_pages in
  let out := download_and_write_bib w ∅ "u1" "zotero.bib" Sample.at_version_7 in
  exists s1 r h latest,
    fetch_url w (Some "u1") ∅ Sample.at_version_7 = (s1, Ok r) /\
    headers r !! "last-modified-version" = Some h /\
    Py.int h = Some latest /\
    cached_version_of (fs (fst out)) "zotero.bib" = latest /\
    (fs (fst out) = fs Sample.at_version_7 \/
     exists body,
       fs (fst out) = <[marker_path "zotero.bib" := Py.str latest]>
                        (<[content_path "zotero.bib" := body]> (fs Sample.at_version_7))).
Proof.
  intros w out.
  apply (successful_sync_caches_probe_version w ∅ "u1" "zotero.bib"
           Sample.at_version_7 (fst out)).
  vm_compute. reflexivity.
Defined.

(** ** The entry point: the loop over the groups *)

Lemma main_with_credentials (w : world) (user_id token : string) :
  env w !! "ZOTERO_USER_ID" = Some user_id ->
  env w !! "ZOTERO_BEARER_TOKEN" = Some token ->
  main w =
  (download_and_write_bib w (bearer token) (user_items_url user_id) "zotero.bib" ;;;
   sync_all_groups w user_id (bearer token)).
Proof. intros Hu Ht. unfold main. rewrite Hu, Ht. reflexivity. Qed.

Lemma sync_groups_cons (w : world) (hdrs : gmap string string)
    (group : gmap string jvalue) (groups : list (gmap string jvalue)) (s : state) :
  sync_groups w hdrs (group :: groups) s =
  if has_id group then
    match download_and_write_bib w hdrs
            (group_items_url (format (default JNull (group !! "id"))))
            (format (default JNull (group !! "id")) +:+ ".bib") s with
    | (s', Ok _) => sync_groups w hdrs groups s'
    | (s', Raise e) => (s', Raise e)
    end
  else sync_groups w hdrs groups s.
Proof.
  unfold sync_groups, has_id. cbn [for_each]. unfold bind.
  destruct (truthy (default JNull (group !! "id"))); reflexivity.
Qed.

(** X11.  The loop syncs the groups whose ["id"] is present and truthy and
    does nothing at all for the others: its run over a list of groups is its
    run over the groups of the list that have such an id. *)
Theorem groups_without_id_are_skipped (w : world) (hdrs : gmap string string)
    (groups : list (gmap string jvalue)) (s : state) :
  sync_groups w hdrs groups s = sync_groups w hdrs (List.filter has_id groups) s.
Proof.
  revert s. induction groups as [|group groups IH]; intros s; [reflexivity|].
  cbn [List.filter]. rewrite sync_groups_cons.
  destruct (has_id group) eqn:E; [|apply IH].
  rewrite sync_groups_cons, E.
  destruct (download_and_write_bib w hdrs _ _ s) as [s' [[]|e]];
    [apply IH | reflexivity].
Qed.

(** X12.  The loop stops at the first group whose sync raises: the
    exception leaves the loop and the groups after it are not synced. *)
Theorem failing_group_ends_the_loop (w : world) (hdrs : gmap string string)
    (before rest : list (gmap string jvalue)) (group : gmap string jvalue)
    (s s1 s2 : state) (e : exn) :
  sync_groups w hdrs before s = (s1, Ok tt) ->
  has_id group = true ->
  download_and_write_bib w hdrs
    (group_items_url (format (default JNull (group !! "id"))))
    (format (default JNull (group !! "id")) +:+ ".bib") s1 = (s2, Raise e) ->
  sync_groups w hdrs (before ++ group :: rest) s = (s2, Raise e).
Proof.
  revert s. induction before as [|g before IH]; intros s Hb Hid Hd.
  - injection Hb as <-. simpl. rewrite sync_groups_cons, Hid, Hd. reflexivity.
  - simpl. rewrite sync_groups_cons in *.
    destruct (has_id g); [|apply IH; assumption].
    destruct (download_and_write_bib w hdrs _ _ s) as [s' [[]|e']];
      [apply IH; assumption | discriminate].
Qed.

Lemma failing_group_ends_the_loop_witness :
  let w := Sample.world_of Sample.group_1_forbidden in
  exists s2,
    sync_groups w ∅ ([] ++ {[ "id" := JInt 1 ]} :: [ {[ "id" := JInt 2 ]} ])
      Sample.at_version_9 = (s2, Raise (HTTPStatusError 403)).
Proof.
  intros w. eexists.
  apply (failing_group_ends_the_loop w ∅ [] [ {[ "id" := JInt 2 ]} ]
           {[ "id" := JInt 1 ]} Sample.at_version_9 Sample.at_version_9).
  - reflexivity.
  - reflexivity.
  - vm_compute. reflexivity.
Defined.

(** ** The entry point: what a whole run sends *)

Section Respects.

Context (rel : state -> state -> Prop).
Context (rel_refl : forall s, rel s s).
Context (rel_trans : forall a b c, rel a b -> rel b c -> rel a c).

Lemma respects_ret {A} (a : A) : respects rel (ret a).
Proof. intros s s' r [= <- _]. apply rel_refl. Qed.

Lemma respects_raise {A} (e : exn) : respects rel (@raise A e).
Proof. intros s s' r [= <- _]. apply rel_refl. Qed.

Lemma respects_bind {A B} (m : M A) (k : A -> M B) :
  respects rel m -> (forall a, respects rel (k a)) -> respects rel (bind m k).
Proof.
  intros Hm Hk s s' r. unfold bind.
  destruct (m s) as [s1 [a|e]] eqn:E; specialize (Hm _ _ _ E).
  - intros H. eapply rel_trans; [exact Hm | exact (Hk a _ _ _ H)].
  - intros [= <- _]. exact Hm.
Qed.

Lemma respects_of_option {A} (e : exn) (o : option A) : respects rel (of_option e o).
Proof. destruct o; [apply respects_ret | apply respects_raise]. Qed.

Lemma respects_for_each {A} (l : list A) (body : A -> M unit) :
  (forall a, respects rel (body a)) -> respects rel (for_each l body).
Proof.
  intros Hb. induction l as [|a l IH]; [apply respects_ret|].
  cbn [for_each]. apply respects_bind; auto.
Qed.

(** Once the requests and the syncs that [main] makes with its headers and
    the log lines respect the relation, so does the whole run. *)
Lemma respects_main (w : world) :
  (forall token url,
     env w !! "ZOTERO_BEARER_TOKEN" = Some token ->
     respects rel (fetch_url w url (bearer token))) ->
  (forall token url file_name,
     env w !! "ZOTERO_BEARER_TOKEN" = Some token ->
     respects rel (download_and_write_bib w (bearer token) url file_name)) ->
  (forall lvl msg, respects rel (log lvl msg)) ->
  respects rel (main w).
Proof.
  intros Hf Hd Hl. unfold main.
  destruct (env w !! "ZOTERO_USER_ID") as [uid|]; [|apply Hl].
  destruct (env w !! "ZOTERO_BEARER_TOKEN") as [tok|] eqn:Ht; [|apply Hl].
  cbn zeta. fold (bearer tok).
  apply respects_bind; [apply Hd; reflexivity|]. intros _.
  apply respects_bind; [apply Hl|]. intros _.
  apply respects_bind; [apply Hf; reflexivity|]. intros groups_response.
  apply respects_bind; [apply respects_of_option|]. intros groups.
  apply respects_bind; [|intros _; apply Hl].
  apply respects_for_each. intros group.
  destruct (truthy (default JNull (group !! "id")));
    [apply Hd; reflexivity | apply respects_ret].
Qed.

End Respects.

Lemma content_path_prefix (file_name : string) :
  starts_with "bibliography/" (content_path file_name) = true.
Proof. reflexivity. Qed.

Lemma marker_path_prefix (file_name : string) :
  starts_with "bibliography/" (marker_path file_name) = true.
Proof. reflexivity. Qed.

Section Requests.

Context (w : world) (hdrs : gmap string string).

Lemma grows_refl (s : state) : grows_by (event_ok hdrs) s s.
Proof. exists []. rewrite app_nil_r. auto. Qed.

Lemma grows_trans (a b c : state) :
  grows_by (event_ok hdrs) a b -> grows_by (event_ok hdrs) b c ->
  grows_by (event_ok hdrs) a c.
Proof.
  intros (t1 & E1 & H1) (t2 & E2 & H2). exists (t1 ++ t2).
  rewrite E2, E1, app_assoc. split; [reflexivity | apply Forall_app; auto].
Qed.

Lemma grows_after (s : state) (t : list event) :
  Forall (fun ev => event_ok hdrs ev = true) t ->
  grows_by (event_ok hdrs) s (after s t).
Proof. intros H. exists t. auto. Qed.

Lemma get_ok (url : string) : event_ok hdrs (EvGet url hdrs) = true.
Proof. apply bool_decide_eq_true. reflexivity. Qed.

Lemma fetch_url_grows (url : option string) :
  respects (grows_by (event_ok hdrs)) (fetch_url w url hdrs).
Proof.
  intros s s' r. destruct url as [u|];
    [|rewrite fetch_url_none; intros [= <- _]; apply grows_refl].
  intros H. apply retry_loop_trace in H as (n & _ & _ & _ & Ht).
  eexists. split; [exact Ht|]. apply Forall_app. split.
  - apply Forall_replicate, get_ok.
  - destruct r; repeat constructor.
Qed.

Lemma follow_and_extract_grows (d : nat) :
  forall url, respects (grows_by (event_ok hdrs)) (follow_and_extract w d url hdrs).
Proof.
  induction d as [|d IH]; intros url s s' r.
  - simpl. intros [= <- _]. apply grows_refl.
  - rewrite follow_and_extract_S.
    destruct (fetch_url w url hdrs s) as [s1 [request|e]] eqn:F;
      apply fetch_url_grows in F; [|intros [= <- _]; exact F].
    destruct (links request !! "next") as [link|]; [|intros [= <- _]; exact F].
    destruct (follow_and_extract w d (link !! "url") hdrs s1) as [s2 r2] eqn:G.
    apply IH in G. intros H.
    assert (s' = s2) as -> by (destruct r2 as [|[]]; congruence).
    eapply grows_trans; eauto.
Qed.

Lemma write_file_grows (file_name path data : string) (msg : message) :
  starts_with "bibliography/" path = true ->
  respects (grows_by (event_ok hdrs))
    (with_open_w w path (file_write path data ;;; log INFO msg)).
Proof.
  intros Hp s s' r. destruct (wr_denied w path) eqn:D.
  - rewrite with_open_w_denied by assumption. intros [= <- _].
    apply (grows_after s). repeat constructor. exact Hp.
  - rewrite write_file_eq by assumption. intros [= <- _].
    exists (write_events path data msg). split; [reflexivity|].
    unfold write_events. repeat constructor; exact Hp.
Qed.

Lemma cache_log_ok (files : gmap string string) (file_name : string) :
  Forall (fun ev => event_ok hdrs ev = true)
    (EvOpen (marker_path file_name) R :: cache_log files file_name).
Proof.
  constructor; [apply marker_path_prefix|].
  unfold cache_log. destruct (files !! marker_path file_name) as [c|]; [|constructor].
  destruct (Py.int (Py.readline c)); repeat constructor.
Qed.

Lemma full_sync_grows (url file_name : string) (latest : Z) :
  respects (grows_by (event_ok hdrs)) (full_sync w hdrs url file_name latest).
Proof.
  unfold full_sync.
  apply respects_bind; [apply grows_trans | apply follow_and_extract_grows |].
  intros body.
  apply respects_bind; [apply grows_trans | |intros _].
  - apply (write_file_grows file_name), content_path_prefix.
  - apply (write_file_grows file_name), marker_path_prefix.
Qed.

Lemma download_grows (url file_name : string) :
  respects (grows_by (event_ok hdrs)) (download_and_write_bib w hdrs url file_name).
Proof.
  intros s s' r H.
  destruct (fetch_url w (Some url) hdrs s) as [sp [resp|e]] eqn:F.
  - pose proof (fetch_url_grows _ _ _ _ F) as Q.
    rewrite (download_after_probe w _ _ _ _ _ _ F) in H. cbn zeta in H.
    set (sr := after sp _) in H.
    assert (grows_by (event_ok hdrs) s sr) as Qr.
    { eapply grows_trans; [exact Q|]. apply grows_after, cache_log_ok. }
    destruct (headers resp !! "last-modified-version") as [h|];
      [|injection H as <- _; exact Qr].
    destruct (Py.int h) as [latest|]; [|injection H as <- _; exact Qr].
    destruct (cached_version_of (fs s) file_name =? latest)%Z.
    + injection H as <- _. eapply grows_trans; [exact Qr|].
      apply (grows_after sr). repeat constructor.
    + eapply grows_trans; [exact Qr|].
      eapply grows_trans; [|exact (full_sync_grows _ _ _ _ _ _ H)].
      apply grows_after. repeat constructor.
  - rewrite (download_probe_raises w _ _ _ _ _ _ F) in H. injection H as <- _.
    eapply fetch_url_grows; eauto.
Qed.

End Requests.

(** X14.  Every GET request of a run of [main] carries the header mapping
    built from the bearer token and nothing else, the requests for the URLs
    that the remote names in its ["next"] links included. *)
Theorem every_request_carries_the_token (w : world) (token : string)
    (s s' : state) (r : result unit) :
  env w !! "ZOTERO_BEARER_TOKEN" = Some token ->
  main w s = (s', r) ->
  exists t,
    trace s' = trace s ++ t /\
    forall url hdrs, EvGet url hdrs ∈ t -> hdrs = bearer token.
Proof.
  intros Ht H.
  assert (respects (grows_by (event_ok (bearer token))) (main w)) as K.
  { apply respects_main.
    - apply grows_refl.
    - apply grows_trans.
    - intros tok url E. assert (tok = token) as -> by congruence.
      apply fetch_url_grows.
    - intros tok url file_name E. assert (tok = token) as -> by congruence.
      apply download_grows.
    - intros lvl msg s0 s1 r0 [= <- _]. exists [EvLog lvl msg].
      split; [reflexivity | repeat constructor]. }
  destruct (K _ _ _ H) as (t & Et & Ft). exists t. split; [exact Et|].
  intros url hdrs Hin. rewrite Forall_forall in Ft. specialize (Ft _ Hin).
  apply bool_decide_eq_true in Ft. exact Ft.
Qed.

Lemma every_request_carries_the_token_witness :
  let out := main (Sample.world_of Sample.group_1_forbidden) Sample.at_version_7 in
  exists t,
    trace (fst out) = trace Sample.at_version_7 ++ t /\
    forall url hdrs, EvGet url hdrs ∈ t -> hdrs = bearer "secret".
Proof.
  intros out.
  apply (every_request_carries_the_token (Sample.world_of Sample.group_1_forbidden)
           "secret" Sample.at_version_7 (fst out) (snd out)).
  - reflexivity.
  - vm_compute. reflexivity.
Defined.

(** ** Resources do not share files *)

Lemma last_char_app (s t : string) (d : ascii) :
  t <> EmptyString -> last_char (s +:+ t) d = last_char t d.
Proof.
  intros Ht. revert d. induction s as [|c s IH]; intros d.
  - destruct t; [congruence | reflexivity].
  - change (last_char (s +:+ t) c = last_char t d). rewrite IH.
    destruct t; [congruence | reflexivity].
Qed.

Lemma string_app_inv_r (a b t : string) : a +:+ t = b +:+ t -> a = b.
Proof.
  revert b. induction a as [|x a IH]; intros [|y b] E.
  - reflexivity.
  - apply (f_equal String.length) in E. rewrite !string_app_length in E.
    simpl in E. lia.
  - apply (f_equal String.length) in E. rewrite !string_app_length in E.
    simpl in E. lia.
  - change (String x (a +:+ t) = String y (b +:+ t)) in E.
    injection E as -> E. f_equal. apply IH, E.
Qed.

Lemma string_app_inv_l (p a b : string) : p +:+ a = p +:+ b -> a = b.
Proof.
  induction p as [|x p IH]; intros E; [exact E|].
  change (String x (p +:+ a) = String x (p +:+ b)) in E.
  injection E as E. apply IH, E.
Qed.

Lemma bib_name_not_marker (x y : string) :
  x +:+ ".bib" <> (y +:+ ".bib") +:+ "-last-modified-version".
Proof.
  intros E. apply (f_equal (fun s => last_char s "000")) in E.
  rewrite !last_char_app in E by discriminate. discriminate.
Qed.

Lemma bib_paths_distinct (a b : string) :
  a <> b ->
  content_path (a +:+ ".bib") <> content_path (b +:+ ".bib") /\
  marker_path (a +:+ ".bib") <> marker_path (b +:+ ".bib") /\
  content_path (a +:+ ".bib") <> marker_path (b +:+ ".bib") /\
  marker_path (a +:+ ".bib") <> content_path (b +:+ ".bib").
Proof.
  intros Hab. unfold content_path, marker_path.
  repeat split; intros E; apply string_app_inv_l in E.
  - apply string_app_inv_r in E. congruence.
  - apply string_app_inv_r, string_app_inv_r in E. congruence.
  - exact (bib_name_not_marker a b E).
  - symmetry in E. exact (bib_name_not_marker b a E).
Qed.

Lemma stem_of_inj (a b : option Z) : stem_of a = stem_of b -> a = b.
Proof.
  assert (forall n, Py.str n <> "zotero") as K.
  { intros n E. pose proof (PyFacts.int_str n) as H. rewrite E in H.
    discriminate H. }
  destruct a as [n|], b as [m|]; simpl; intros E.
  - f_equal. pose proof (PyFacts.int_str n) as H. rewrite E in H.
    rewrite PyFacts.int_str in H. congruence.
  - destruct (K n E).
  - symmetry in E. destruct (K m E).
  - reflexivity.
Qed.

(** X15.  The resources of a run are the user's library, whose output name
    is [zotero.bib], and the groups, whose output name is the decimal text
    of the integer id followed by [.bib].  Whatever its outcome, the sync of
    one of them leaves the content file and the marker file of every other
    one as they were: no two of them share a path, and no content path is
    the marker path of another. *)
Theorem syncs_do_not_interfere (w : world) (hdrs : gmap string string)
    (url : string) (a b : option Z) (s s' : state) (r : result unit) :
  a <> b ->
  download_and_write_bib w hdrs url (stem_of a +:+ ".bib") s = (s', r) ->
  fs s' !! content_path (stem_of b +:+ ".bib")
  = fs s !! content_path (stem_of b +:+ ".bib") /\
  fs s' !! marker_path (stem_of b +:+ ".bib")
  = fs s !! marker_path (stem_of b +:+ ".bib").
Proof.
  intros Hab H.
  assert (stem_of a <> stem_of b) as Hst.
  { intros E. apply Hab, stem_of_inj, E. }
  destruct (bib_paths_distinct _ _ Hst) as (H1 & H2 & H3 & H4).
  apply download_shape in H as (sq & [Hfs _] & E).
  apply sync_end_files in E as [-> | [(body & _ & _ & ->) | (body & latest & _ & ->)]];
    rewrite ?lookup_insert_ne by congruence; rewrite Hfs; split; reflexivity.
Qed.

Lemma syncs_do_not_interfere_witness :
  let out :=
    download_and_write_bib (Sample.world_of Sample.three_pages) ∅ "u1"
      (stem_of (Some 1%Z) +:+ ".bib") Sample.at_version_7 in
  fs (fst out) !! content_path (stem_of None +:+ ".bib")
  = fs Sample.at_version_7 !! content_path (stem_of None +:+ ".bib") /\
  fs (fst out) !! marker_path (stem_of None +:+ ".bib")
  = fs Sample.at_version_7 !! marker_path (stem_of None +:+ ".bib").
Proof.
  intros out.
  apply (syncs_do_not_interfere (Sample.world_of Sample.three_pages) ∅ "u1"
           (Some 1%Z) None Sample.at_version_7 (fst out) (snd out)).
  - discriminate.
  - vm_compute. reflexivity.
Defined.

(** The names that [main] gives to [download_and_write_bib]: the default of
    line 28 for the user's library, line 106 for a group with an integer
    id. *)
Example stem_of_user : stem_of None +:+ ".bib" = "zotero.bib".
Proof. reflexivity. Qed.

Example stem_of_group (n : Z) :
  stem_of (Some n) +:+ ".bib" = format (JInt n) +:+ ".bib".
Proof. reflexivity. Qed.

(** ** A chain that never ends *)

Lemma fetch_url_first_try (w : world) (url : string) (hdrs : gmap string string)
    (r : response) (s : state) :
  server w (clock s) url hdrs = Ok r ->
  is_success r = true ->
  fetch_url w (Some url) hdrs s =
  ({| fs := fs s; clock := S (clock s);
      trace := trace s ++ [EvGet url hdrs; EvLog INFO (MsgReturned url (status_code r))] |},
   Ok r).
Proof.
  intros Hs Hok. unfold fetch_url, stamina_retry. change (3 - 1)%nat with 2%nat.
  rewrite retry_loop_S, fetch_url_body_eq. unfold attempt_outcome.
  rewrite Hs, Hok, <- app_assoc. reflexivity.
Qed.

(** X16.  Nothing but the recursion limit ends the pagination.  When the
    remote always answers a URL with a page whose ["next"] link names that
    same URL, [follow_and_extract] requests it once per allowed nested call
    and then raises [RecursionError]; it never returns a text. *)
Theorem pagination_on_a_cycle (w : world) (hdrs : gmap string string)
    (url : string) (r : response) (link : gmap string string) (d : nat)
    (s : state) :
  (forall n, server w n url hdrs = Ok r) ->
  is_success r = true ->
  links r !! "next" = Some link ->
  link !! "url" = Some url ->
  exists s',
    follow_and_extract w d (Some url) hdrs s = (s', Raise RecursionError) /\
    clock s' = (clock s + d)%nat /\
    fs s' = fs s.
Proof.
  intros Hs Hok Hl Hu. revert s. induction d as [|d IH]; intros s.
  - exists s. simpl. repeat split; lia.
  - rewrite follow_and_extract_S, (fetch_url_first_try w url hdrs r s (Hs _) Hok).
    rewrite Hl, Hu.
    destruct (IH {| fs := fs s; clock := S (clock s);
                    trace := trace s ++ [EvGet url hdrs;
                               EvLog INFO (MsgReturned url (status_code r))] |})
      as (s' & -> & Hc & Hf).
    exists s'. simpl in *. repeat split; [lia | assumption].
Qed.

Lemma pagination_on_a_cycle_witness :
  exists s',
    follow_and_extract (Sample.world_of Sample.looping) 1000 (Some "u1") ∅
      (Sample.disk ∅) = (s', Raise RecursionError) /\
    clock s' = (clock (Sample.disk ∅) + 1000)%nat /\
    fs s' = fs (Sample.disk ∅).
Proof.
  apply (pagination_on_a_cycle (Sample.world_of Sample.looping) ∅ "u1"
           (Sample.page (Some "9") "A" (Some "u1"))
           {[ "url" := "u1"; "rel" := "next" ]} 1000 (Sample.disk ∅)).
  - intros n. reflexivity.
  - reflexivity.
  - reflexivity.
  - reflexivity.
Defined.
